(** * Network telemetry collection and merge pipeline (molly-skeleton)

    A shallow embedding of [Metrics.monitorNetworkTraffic] and
    [Metrics.mergeNetworkTraces] (with its inner [extendJsonWithErrors]) of
    common/utils/metricsIntegration.ts, and the properties of the
    specification that concern them.

    Conventions of the embedding.
    - A JS number that is a time (a double) is an element of an abstract
      carrier [num] with the operations the code applies to it; nothing is
      assumed about them.  Status codes are integers ([Z]); counters that
      only ever count are [nat].
    - A JS string is a [string], read as the UTF-8 bytes of the text.
    - A JS object used as a dictionary is a [gmap] when the code only reads
      and writes single keys, and a list of pairs in creation order when
      the code enumerates it and the order can be observed.  Keys range over
      role names, operation names and URLs; none of them is taken to be the
      name of a member of Object.prototype.
    - The Playwright driver, the file system and the logger are external:
      an event carries the values its accessors deliver, the trace store is
      a list of named files, the log is the list of entries written.
    - Listeners run one after the other, each to completion. *)

From stdpp Require Import gmap strings list fin_maps pretty.
From Stdlib Require Import Ascii QArith Lia.

Close Scope Q_scope.

(** ** JavaScript built-ins used by the source *)

Module Js.

(** [s.startsWith(q)], the step of [includes]. *)
Fixpoint starts_with (q s : string) : bool :=
  match q, s with
  | EmptyString, _ => true
  | String a q', String b s' => bool_decide (a = b) && starts_with q' s'
  | String _ _, EmptyString => false
  end.

(** [s.includes(q)]: [q] occurs in [s] at some position. *)
Fixpoint includes (s q : string) : bool :=
  starts_with q s ||
  match s with
  | EmptyString => false
  | String _ s' => includes s' q
  end.

(** [s.split(c)[0]]: the text before the first [c], all of [s] without one. *)
Fixpoint split_head (c : ascii) (s : string) : string :=
  match s with
  | EmptyString => EmptyString
  | String a s' => if bool_decide (a = c) then EmptyString else String a (split_head c s')
  end.

(** A string is truthy unless it is empty. *)
Definition truthy_string (s : string) : bool :=
  match s with
  | EmptyString => false
  | String _ _ => true
  end.

Definition hex_digit (n : N) : ascii :=
  ascii_of_N (if (n <? 10)%N then 48 + n else 87 + n).

Definition quote_char : ascii := ascii_of_N 34.
Definition backslash : ascii := ascii_of_N 92.

(** QuoteJSONString, one code unit: the two-character escapes, [\u00xx] for
    the other control characters, the character itself otherwise. *)
Definition json_escape (a : ascii) : string :=
  let n := N_of_ascii a in
  let esc (c : ascii) := String backslash (String c EmptyString) in
  if (n =? 8)%N then esc "b"%char
  else if (n =? 9)%N then esc "t"%char
  else if (n =? 10)%N then esc "n"%char
  else if (n =? 12)%N then esc "f"%char
  else if (n =? 13)%N then esc "r"%char
  else if (n =? 34)%N then esc quote_char
  else if (n =? 92)%N then esc backslash
  else if (n <? 32)%N then
    String backslash
      (String "u" (String "0" (String "0"
        (String (hex_digit (n / 16)) (String (hex_digit (n mod 16)) EmptyString)))))
  else String a EmptyString.

Fixpoint json_escape_all (s : string) : string :=
  match s with
  | EmptyString => EmptyString
  | String a s' => json_escape a +:+ json_escape_all s'
  end.

(** [JSON.stringify(s)] of a string value. *)
Definition JSON_stringify (s : string) : string :=
  String quote_char (json_escape_all s +:+ String quote_char EmptyString).

(** The values the error summaries hold. *)
Inductive value :=
  | JNull
  | JNum (z : Z)
  | JStr (s : string)
  | JArr (l : list Z).

(** [ToString] of an integer; also the property key a number indexes with. *)
Definition ToString (z : Z) : string := pretty z.

(** [v || null]. *)
Definition or_null (v : value) : value :=
  match v with
  | JNull => JNull
  | JNum z => if bool_decide (z = 0%Z) then JNull else v
  | JStr s => if truthy_string s then v else JNull
  | JArr _ => v
  end.

(** [Array.prototype.reduce] without an initial value: the first element
    seeds the accumulator; on an empty array it raises TypeError ([None]). *)
Definition reduce {A} (f : A -> A -> A) (l : list A) : option A :=
  match l with
  | [] => None
  | x :: l' => Some (fold_left f l' x)
  end.

(** *** A [Record<number, number>] of occurrence counts

    The own properties in creation order, each key the number that
    [ToString] turns into the property name. *)
Definition counts := list (Z * nat).

(** [m[k]], with 0 for a missing key (the code only reads keys it has set). *)
Fixpoint count_of (m : counts) (k : Z) : nat :=
  match m with
  | [] => 0
  | (k', n) :: m' => if bool_decide (k = k') then n else count_of m' k
  end.

(** [m[k] = (m[k] || 0) + 1]. *)
Fixpoint bump (k : Z) (m : counts) : counts :=
  match m with
  | [] => [(k, 1)]
  | (k', n) :: m' => if bool_decide (k = k') then (k', S n) :: m' else (k', n) :: bump k m'
  end.

(** [codes.forEach(c => { m[c] = (m[c] || 0) + 1 })] from the empty object. *)
Definition tally (codes : list Z) : counts :=
  fold_left (fun m c => bump c m) codes [].

(** A property name is an array index when it is the canonical string of an
    integer in [0, 2^32 - 2]. *)
Definition is_array_index (k : Z) : bool :=
  (0 <=? k)%Z && (k <? 2 ^ 32 - 1)%Z.

Fixpoint insert_sorted (k : Z) (l : list Z) : list Z :=
  match l with
  | [] => [k]
  | x :: l' => if (k <=? x)%Z then k :: l else x :: insert_sorted k l'
  end.

Definition sort_keys (l : list Z) : list Z := fold_right insert_sorted [] l.

(** [Object.keys(m)] (OrdinaryOwnPropertyKeys): the array-index keys in
    ascending numeric order, then the other keys in creation order. *)
Definition Object_keys (m : counts) : list Z :=
  let ks := map fst m in
  sort_keys (List.filter is_array_index ks)
    ++ List.filter (fun k => negb (is_array_index k)) ks.

(** The callback [(a, b) => m[a] > m[b] ? a : b] of both reductions. *)
Definition pick (m : counts) (a b : Z) : Z :=
  if (count_of m b <? count_of m a)%nat then a else b.

(** A list of keys ascends: what stands before a key is smaller. *)
Definition ascending (l : list Z) : Prop :=
  forall l1 k l2, l = l1 ++ k :: l2 -> Forall (fun c => (c < k)%Z) l1.

End Js.

Import Js.

(** ** Data model *)

(** The operations the source applies to times: [0], [+], [-], [/], [>], and
    the reading of a counter as a number. *)
Class JsNumber (num : Type) := {
  nzero : num;
  nadd : num -> num -> num;
  nsub : num -> num -> num;
  ndiv : num -> num -> num;
  ngtb : num -> num -> bool;
  of_count : nat -> num
}.

(** [Record<string, string>]. *)
Definition Headers := list (string * string).

(** What [requestBody.operationName] reads from a posted JSON body. *)
Inductive OperationName :=
  | OpUndefined
  | OpNull
  | OpString (s : string).

(** The property key [operations[requestBody.operationName]] indexes with. *)
Definition operation_key (o : OperationName) : string :=
  match o with
  | OpUndefined => "undefined"
  | OpNull => "null"
  | OpString s => s
  end.

(** A posted JSON body: its operation name and the rest of its text. *)
Record RequestBody := {
  operationName : OperationName;
  payload : string
}.

(** The error summaries of the report.  On the remote-call path the entry is
    first created as the empty object. *)
Record GqlSummary := {
  gql_count : nat;
  gql_mostCommonStatusCode : value;
  gql_allStatusCodes : value
}.

Inductive GqlEntry :=
  | EmptyObject
  | Summary (s : GqlSummary).

Record RestSummary := {
  count : nat;
  mostCommonStatusCode : value;
  allStatusCodes : list Z
}.

Record Errors := {
  errors_gql : gmap string GqlEntry;
  errors_rest : gmap string RestSummary
}.

(** What a rejected driver promise carries: an Error object or a string. *)
Inductive Thrown :=
  | ThrownError (message : string)
  | ThrownString (s : string).

Inductive Completion :=
  | Completed
  | Unhandled.

Section Model.

Context {num : Type} `{!JsNumber num}.

(** interface RequestData.  [responseBody] is absent when the body could not
    be read; [responseStatusCode] is absent in a session trace (the driver's
    response has no such property) and set by the merge. *)
Record RequestData := {
  statusCode : Z;
  requestUrl : string;
  requestHeaders : Headers;
  requestBody : option RequestBody;
  responseUrl : string;
  responseHeaders : Headers;
  responseBody : option string;
  responseTime : num;
  responseStatusCode : option Z
}.

Record OverallInformation := {
  avgResponseTime : num;
  totalRequests : nat;
  totalTime : num;
  contextTime : num
}.

(** interface CollectedData, the session trace. *)
Record CollectedData := {
  overallInformation : OverallInformation;
  requests : list RequestData
}.

(** MollyConfig.global.metrics.networkTraffic. *)
Record Config := {
  URLQuery : list string;
  threshold_ms : num
}.

(** The driver's response; [body] is [None] when [response.body()] rejects. *)
Record Response := {
  status : Z;
  response_url : string;
  response_allHeaders : Headers;
  body : option string
}.

Inductive ResponseResult :=
  | Resolved (r : Response)
  | ResolvedNull
  | Rejected (e : Thrown).

Record Timing := {
  requestStart : num;
  responseEnd : num
}.

(** The argument of a 'requestfinished' listener. *)
Record Exchange := {
  url : string;
  timing : Timing;
  response : ResponseResult;
  allHeaders : Headers;
  postDataJSON : option RequestBody
}.

(** The entries MollyHelper.log receives from the two methods. *)
Inductive LogEntry :=
  | WarnContextNotAwaited
  | WarnNoResponseBuffer (u : string)
  | InfoSavingStarted
  | SuccessMetricsSaved (fileName : string)
  | InfoNoDataToSave (threshold : num)
  | InfoMerging
  | WarnFolderNotFound
  | WarnCannotParse (fileName : string)
  | WarnNoRequests
  | WarnNoResponseBodies
  | InfoGatheringErrors.

Definition is_warning (l : LogEntry) : bool :=
  match l with
  | WarnContextNotAwaited | WarnNoResponseBuffer _ | WarnFolderNotFound
  | WarnCannotParse _ | WarnNoRequests | WarnNoResponseBodies => true
  | _ => false
  end.

(** What a file of the trace store parses to: [JSON.parse] fails on
    [NotJson]; a trace may lack its [requests] field. *)
Inductive FileContent :=
  | NotJson (text : string)
  | TraceJson (overall : OverallInformation) (reqs : option (list RequestData)).

(** ** Session observer: Metrics.monitorNetworkTraffic *)

(** The listener's closure: the trace under construction, and the log. *)
Record Observer := {
  collectedData : CollectedData;
  log : list LogEntry
}.

Definition initial : Observer :=
  {| collectedData :=
       {| overallInformation :=
            {| avgResponseTime := nzero; totalRequests := 0;
               totalTime := nzero; contextTime := nzero |};
          requests := [] |};
     log := [] |}.

Definition write_log (l : LogEntry) (st : Observer) : Observer :=
  {| collectedData := collectedData st; log := log st ++ [l] |}.

(** [URLQuery.some(query => url.includes(query))]. *)
Definition url_matches (cfg : Config) (u : string) : bool :=
  existsb (fun query => includes u query) (URLQuery cfg).

(** [totalRequests++; totalTime += responseTime]. *)
Definition count_exchange (t : num) (st : Observer) : Observer :=
  let o := overallInformation (collectedData st) in
  {| collectedData :=
       {| overallInformation :=
            {| avgResponseTime := avgResponseTime o;
               totalRequests := S (totalRequests o);
               totalTime := nadd (totalTime o) t;
               contextTime := contextTime o |};
          requests := requests (collectedData st) |};
     log := log st |}.

(** [collectedData.requests.push(dataObject)]. *)
Definition push_request (d : RequestData) (st : Observer) : Observer :=
  {| collectedData :=
       {| overallInformation := overallInformation (collectedData st);
          requests := requests (collectedData st) ++ [d] |};
     log := log st |}.

Definition response_time (data : Exchange) : num :=
  nsub (responseEnd (timing data)) (requestStart (timing data)).

(** The object literal of lines 174-184. *)
Definition dataObject (data : Exchange) (r : Response) (buffer : option string) : RequestData :=
  {| statusCode := status r;
     requestUrl := url data;
     requestHeaders := allHeaders data;
     requestBody := postDataJSON data;
     responseUrl := response_url r;
     responseHeaders := response_allHeaders r;
     responseBody := buffer;
     responseTime := response_time data;
     responseStatusCode := None |}.

(** The second condition of the listener (lines 165-166). *)
Definition slow_or_failing (cfg : Config) (data : Exchange) (r : Response) : bool :=
  url_matches cfg (url data)
    && (negb (bool_decide (status r = 200%Z)) || ngtb (response_time data) (threshold_ms cfg)).

(** The listener once the response is at hand (lines 153-186). *)
Definition record_exchange (cfg : Config) (st : Observer) (data : Exchange) (r : Response) : Observer :=
  let st1 :=
    if url_matches cfg (url data) then count_exchange (response_time data) st else st in
  if slow_or_failing cfg data r then
    let st2 :=
      match body r with
      | Some _ => st1
      | None => write_log (WarnNoResponseBuffer (url data)) st1
      end in
    push_request (dataObject data r (body r)) st2
  else st1.

Definition context_closed_message : string :=
  "Target page, context or browser has been closed".

(** The 'requestfinished' listener.  When [data.response()] rejects, the
    catch handler calls [e.includes], which an Error object does not have;
    in every case without a response the listener ends on a TypeError
    before it touches the trace. *)
Definition on_requestfinished (cfg : Config) (st : Observer) (data : Exchange) : Observer * Completion :=
  match response data with
  | Resolved r => (record_exchange cfg st data r, Completed)
  | ResolvedNull => (st, Unhandled)
  | Rejected (ThrownError _) => (st, Unhandled)
  | Rejected (ThrownString s) =>
      if includes s context_closed_message
      then (write_log WarnContextNotAwaited st, Unhandled)
      else (st, Unhandled)
  end.

(** The listeners of a session, in the order the exchanges finish. *)
Definition observe (cfg : Config) (events : list Exchange) : Observer :=
  fold_left (fun st data => fst (on_requestfinished cfg st data)) events initial.

(** [JSON.stringify(collectedData)] as the merge will parse it. *)
Definition serialize (c : CollectedData) : FileContent :=
  TraceJson (overallInformation c) (Some (requests c)).

Definition with_average (c : CollectedData) : CollectedData :=
  let o := overallInformation c in
  {| overallInformation :=
       {| avgResponseTime := ndiv (totalTime o) (of_count (totalRequests o));
          totalRequests := totalRequests o;
          totalTime := totalTime o;
          contextTime := contextTime o |};
     requests := requests c |}.

(** The 'close' listener: the file written, if any, and the observer after. *)
Definition on_close (cfg : Config) (fileName : string) (st : Observer) : option (string * FileContent) * Observer :=
  match requests (collectedData st) with
  | _ :: _ =>
      let c := with_average (collectedData st) in
      (Some (fileName, serialize c),
       {| collectedData := c;
          log := log st ++ [InfoSavingStarted; SuccessMetricsSaved fileName] |})
  | [] => (None, write_log (InfoNoDataToSave (threshold_ms cfg)) st)
  end.

(** [`${role}_metrics_report_${Date.now()}.json`]. *)
Definition trace_file_name (role : string) (now : N) : string :=
  role +:+ "_metrics_report_" +:+ pretty now +:+ ".json".

(** A whole session: the exchanges that finish, then the page closes. *)
Definition monitorNetworkTraffic (cfg : Config) (role : string) (now : N) (events : list Exchange) : option (string * FileContent) * Observer :=
  on_close cfg (trace_file_name role now) (observe cfg events).

(** ** Merge engine: Metrics.mergeNetworkTraces *)

(** The object literals the merge pushes (lines 280-302): a copy of a
    request whose [responseBody] is present, with [responseStatusCode] set
    to the request's [statusCode]. *)
Record MergedRequest := {
  mStatusCode : Z;
  mRequestUrl : string;
  mRequestHeaders : Headers;
  mRequestBody : option RequestBody;
  mResponseUrl : string;
  mResponseHeaders : Headers;
  mResponseBody : string;
  mResponseTime : num;
  mResponseStatusCode : Z
}.

(** One role of the merged report: [gql.operations] maps an operation name
    to its [requests]; [rest.requests] is a list. *)
Record RoleEntry := {
  roleOverallInformation : OverallInformation;
  operations : gmap string (list MergedRequest);
  restRequests : list MergedRequest
}.

(** interface mergedMetrics; [roles] in creation order, as [for ... in]
    enumerates it. *)
Record MergedMetrics := {
  roles : list (string * RoleEntry);
  errors : option Errors
}.

Fixpoint roles_get (rs : list (string * RoleEntry)) (role : string) : option RoleEntry :=
  match rs with
  | [] => None
  | (k, e) :: rs' => if bool_decide (k = role) then Some e else roles_get rs' role
  end.

Fixpoint roles_alter (f : RoleEntry -> RoleEntry) (role : string) (rs : list (string * RoleEntry)) : list (string * RoleEntry) :=
  match rs with
  | [] => []
  | (k, e) :: rs' =>
      if bool_decide (k = role) then (k, f e) :: rs' else (k, e) :: roles_alter f role rs'
  end.

Definition copy_request (request : RequestData) (b : string) : MergedRequest :=
  {| mStatusCode := statusCode request;
     mRequestUrl := requestUrl request;
     mRequestHeaders := requestHeaders request;
     mRequestBody := requestBody request;
     mResponseUrl := responseUrl request;
     mResponseHeaders := responseHeaders request;
     mResponseBody := b;
     mResponseTime := responseTime request;
     mResponseStatusCode := statusCode request |}.

(** [operations[name]] is created with no requests when missing, then the
    copy is pushed. *)
Definition push_operation (name : string) (c : MergedRequest) (e : RoleEntry) : RoleEntry :=
  {| roleOverallInformation := roleOverallInformation e;
     operations := <[name := default [] (operations e !! name) ++ [c]]> (operations e);
     restRequests := restRequests e |}.

Definition push_rest (c : MergedRequest) (e : RoleEntry) : RoleEntry :=
  {| roleOverallInformation := roleOverallInformation e;
     operations := operations e;
     restRequests := restRequests e ++ [c] |}.

(** The body of [for (const request of metrics.requests)] (lines 259-304). *)
Definition merge_request (role : string) (acc : list (string * RoleEntry) * list LogEntry) (request : RequestData) : list (string * RoleEntry) * list LogEntry :=
  let '(rs, lg) := acc in
  match responseBody request with
  | None => (rs, lg ++ [WarnNoResponseBodies])
  | Some b =>
      if includes (requestUrl request) "graphql" then
        match requestBody request with
        | None => (rs, lg)
        | Some rb =>
            (roles_alter
               (push_operation (operation_key (operationName rb)) (copy_request request b))
               role rs,
             lg)
        end
      else (roles_alter (push_rest (copy_request request b)) role rs, lg)
  end.

Definition seed_role (o : OverallInformation) : RoleEntry :=
  {| roleOverallInformation := o; operations := ∅; restRequests := [] |}.

(** The callback of [files.forEach] (lines 228-305). *)
Definition merge_file (acc : list (string * RoleEntry) * list LogEntry) (file : string * FileContent) : list (string * RoleEntry) * list LogEntry :=
  let '(rs, lg) := acc in
  match snd file with
  | NotJson _ => (rs, lg ++ [WarnCannotParse (fst file)])
  | TraceJson overall reqs =>
      let role := split_head "_" (fst file) in
      let rs1 :=
        match roles_get rs role with
        | Some _ => rs
        | None => rs ++ [(role, seed_role overall)]
        end in
      match reqs with
      | None => (rs1, lg ++ [WarnNoRequests])
      | Some l => fold_left (merge_request role) l (rs1, lg)
      end
  end.

(** ** Error classifier: extendJsonWithErrors *)

(** The test of line 329-330 and of the filter of lines 342-346. *)
Definition is_error (request : MergedRequest) : bool :=
  includes (JSON_stringify (mResponseBody request)) "error"
    || negb (bool_decide (mResponseStatusCode request = 200%Z)).

(** Lines 354-360 and 397-403: null without keys, the reduction otherwise. *)
Definition most_common (m : counts) : value :=
  match reduce (pick m) (Object_keys m) with
  | Some k => JStr (ToString k)
  | None => JNull
  end.

(** The object assigned at lines 362-368 for an operation's requests;
    [None] when the reduction of line 365 raises on an empty array. *)
Definition gql_summary (operation : list MergedRequest) : option GqlSummary :=
  let errorStatusCodesArray := map mResponseStatusCode (List.filter is_error operation) in
  let statusCodeCounts := tally errorStatusCodesArray in
  match reduce (pick statusCodeCounts) errorStatusCodesArray with
  | Some c =>
      Some {| gql_count := length errorStatusCodesArray;
              gql_mostCommonStatusCode := or_null (most_common statusCodeCounts);
              gql_allStatusCodes := JNum c |}
  | None => None
  end.

(** [key in updatedJson.errors]: the object owns [gql] and [rest]. *)
Definition in_errors (key : string) : bool :=
  bool_decide (key = "gql") || bool_decide (key = "rest").

Definition set_gql (name : string) (v : GqlEntry) (e : Errors) : Errors :=
  {| errors_gql := <[name := v]> (errors_gql e); errors_rest := errors_rest e |}.

Definition set_rest (u : string) (v : RestSummary) (e : Errors) : Errors :=
  {| errors_gql := errors_gql e; errors_rest := <[u := v]> (errors_rest e) |}.

(** The body of [for (const request of operation.requests)] (lines 325-373);
    the catch clause keeps what the try block had written. *)
Definition classify_request (name : string) (operation : list MergedRequest) (e : Errors) (request : MergedRequest) : Errors :=
  if truthy_string (mResponseBody request) then
    if is_error request then
      let e1 := if in_errors name then e else set_gql name EmptyObject e in
      match gql_summary operation with
      | Some s => set_gql name (Summary s) e1
      | None => e1
      end
    else e
  else e.

Definition classify_operation (name : string) (operation : list MergedRequest) (e : Errors) : Errors :=
  fold_left (classify_request name operation) operation e.

(** What [updatedJson.errors[key]] reads. *)
Inductive ErrorsProperty :=
  | PropGql (m : gmap string GqlEntry)
  | PropRest (m : gmap string RestSummary).

Definition errors_property (e : Errors) (key : string) : option ErrorsProperty :=
  if bool_decide (key = "gql") then Some (PropGql (errors_gql e))
  else if bool_decide (key = "rest") then Some (PropRest (errors_rest e))
  else None.

(** [[...new Set(x)]]: empty for undefined; a plain object is not iterable
    and raises TypeError ([None]). *)
Definition spread_set (x : option ErrorsProperty) : option (list Z) :=
  match x with
  | None => Some []
  | Some _ => None
  end.

(** The body of [for (const request of role.rest.requests)] (lines 377-411);
    [None] when it raises. *)
Definition classify_rest (e : Errors) (request : MergedRequest) : option Errors :=
  if negb (bool_decide (mResponseStatusCode request = 200%Z)) then
    let u := mRequestUrl request in
    match errors_rest e !! u with
    | None =>
        Some (set_rest u
                {| count := 1;
                   mostCommonStatusCode := JNum (mResponseStatusCode request);
                   allStatusCodes := [mResponseStatusCode request] |} e)
    | Some s =>
        let statusCodeCounts := tally (allStatusCodes s) in
        match spread_set (errors_property e ("rest-" +:+ u)) with
        | Some l =>
            Some (set_rest u
                    {| count := count s + 1;
                       mostCommonStatusCode := most_common statusCodeCounts;
                       allStatusCodes := l |} e)
        | None => None
        end
    end
  else Some e.

Fixpoint classify_rest_requests (e : Errors) (l : list MergedRequest) : option Errors :=
  match l with
  | [] => Some e
  | request :: l' =>
      match classify_rest e request with
      | Some e' => classify_rest_requests e' l'
      | None => None
      end
  end.

(** The body of [for (const roleName in updatedJson.roles)]. *)
Definition classify_role (e : Errors) (role : RoleEntry) : option Errors :=
  classify_rest_requests
    (map_fold classify_operation e (operations role))
    (restRequests role).

Fixpoint classify_roles (e : Errors) (rs : list (string * RoleEntry)) : option Errors :=
  match rs with
  | [] => Some e
  | (_, role) :: rs' =>
      match classify_role e role with
      | Some e' => classify_roles e' rs'
      | None => None
      end
  end.

Definition no_errors : Errors := {| errors_gql := ∅; errors_rest := ∅ |}.

(** [extendJsonWithErrors(initialJson)]; [None] when it raises.  The copy
    [JSON.parse(JSON.stringify(initialJson))] it works on has the same
    roles, operations, URLs, response bodies and status codes. *)
Definition extendJsonWithErrors (initialJson : MergedMetrics) : option MergedMetrics :=
  match classify_roles (default no_errors (errors initialJson)) (roles initialJson) with
  | Some e => Some {| roles := roles initialJson; errors := Some e |}
  | None => None
  end.

(** ** The whole merge, on a file system *)

(** The trace store (absent when its directory is) in the order
    [readdirSync] lists it, and the report directory. *)
Record FileSystem := {
  store : option (list (string * FileContent));
  reports : list (string * MergedMetrics)
}.

Inductive Outcome :=
  | Returned
  | ThrewTypeError.

Definition report_file_name (stamp : string) : string :=
  "merged_metrics_report" +:+ stamp +:+ ".json".

(** [mergeNetworkTraces()]: how it ends, the file system it leaves and the
    log it writes.  When [readdirSync] raises, [files] stays undefined and
    [files.forEach] raises a TypeError. *)
Definition mergeNetworkTraces (stamp : string) (fs : FileSystem) : Outcome * FileSystem * list LogEntry :=
  match store fs with
  | None => (ThrewTypeError, fs, [InfoMerging; WarnFolderNotFound])
  | Some files =>
      let '(rs, lg) := fold_left merge_file files ([], [InfoMerging]) in
      match extendJsonWithErrors {| roles := rs; errors := None |} with
      | Some merged =>
          (Returned,
           {| store := None;
              reports := reports fs ++ [(report_file_name stamp, merged)] |},
           lg ++ [InfoGatheringErrors])
      | None => (ThrewTypeError, fs, lg ++ [InfoGatheringErrors])
      end
  end.


(** ** Notions the properties are stated with *)

(** [q] is a substring of [u]. *)
Definition occurs_in (q u : string) : Prop :=
  exists pre post, u = pre +:+ q +:+ post.

(** The URL contains at least one configured [URLQuery] substring. *)
Definition monitored_url (cfg : Config) (u : string) : Prop :=
  exists query, In query (URLQuery cfg) /\ occurs_in query u.

(** The exchanges of a session that passed the URL filter (with a response
    at hand, without which the listener ends before the filter). *)
Definition monitored (cfg : Config) (data : Exchange) : bool :=
  match response data with
  | Resolved _ => url_matches cfg (url data)
  | _ => false
  end.

(** The records an exchange leaves in the trace: one or none. *)
Definition recorded (cfg : Config) (data : Exchange) : list RequestData :=
  match response data with
  | Resolved r => if slow_or_failing cfg data r then [dataObject data r (body r)] else []
  | _ => []
  end.

(** The response times of a list of exchanges, added up from 0 in order. *)
Definition total_time (l : list Exchange) : num :=
  fold_left nadd (map response_time l) nzero.

(** A request of an operation that makes the classifier write its entry. *)
Definition triggers (request : MergedRequest) : bool :=
  truthy_string (mResponseBody request) && is_error request.

(** The status codes of the erroring requests of an operation. *)
Definition error_codes (operation : list MergedRequest) : list Z :=
  map mResponseStatusCode (List.filter is_error operation).

(** The status codes of the failing requests for URL [u] in a list. *)
Definition rest_failures (u : string) (l : list MergedRequest) : list Z :=
  map mResponseStatusCode
    (List.filter
       (fun request =>
          bool_decide (mRequestUrl request = u)
            && negb (bool_decide (mResponseStatusCode request = 200%Z)))
       l).

(** The resource requests of all roles, in the order they are classified. *)
Definition all_rest (rs : list (string * RoleEntry)) : list MergedRequest :=
  flat_map (fun p => restRequests (snd p)) rs.

(** How often a status code occurs in a list. *)
Definition occurrences (l : list Z) (c : Z) : nat := count_occ Z.eq_dec l c.

(** What one role does to the entry [errors.gql[name]]: it writes the
    summary of its operation of that name if a request of it triggers. *)
Definition gql_step (prev : option GqlEntry) (ops : gmap string (list MergedRequest)) (name : string) : option GqlEntry :=
  match ops !! name with
  | Some operation =>
      if existsb triggers operation then Summary <$> gql_summary operation else prev
  | None => prev
  end.

(** The entry [errors.gql[name]] after the roles were classified in order. *)
Definition gql_entry (rs : list (string * RoleEntry)) (name : string) : option GqlEntry :=
  fold_left (fun prev p => gql_step prev (operations (snd p)) name) rs None.

(** What one failing request does to the entry [errors.rest[url]]. *)
Definition rest_step (prev : option RestSummary) (code : Z) : option RestSummary :=
  Some
    match prev with
    | None => {| count := 1; mostCommonStatusCode := JNum code; allStatusCodes := [code] |}
    | Some s =>
        {| count := count s + 1;
           mostCommonStatusCode := most_common (tally (allStatusCodes s));
           allStatusCodes := [] |}
    end.

(** The entry [errors.rest[url]] after the failures with the given codes. *)
Definition rest_entry (codes : list Z) : option RestSummary :=
  match codes with
  | [] => None
  | [c] => Some {| count := 1; mostCommonStatusCode := JNum c; allStatusCodes := [c] |}
  | c :: _ :: more =>
      Some {| count := length codes;
              mostCommonStatusCode :=
                match more with
                | [] => JStr (ToString c)
                | _ :: _ => JNull
                end;
              allStatusCodes := [] |}
  end.

(** The overallInformation the merged roles hold for a role, if any. *)
Definition overall_of (rs : list (string * RoleEntry)) (k : string) : option OverallInformation :=
  roleOverallInformation <$> roles_get rs k.

(** The report of a finished merge: the last file of the report directory. *)
Definition written_report (result : Outcome * FileSystem * list LogEntry) : option MergedMetrics :=
  match result with
  | (Returned, fs, _) => snd <$> last (reports fs)
  | (ThrewTypeError, _, _) => None
  end.

End Model.

Arguments RequestData : clear implicits.
Arguments OverallInformation : clear implicits.
Arguments CollectedData : clear implicits.
Arguments Config : clear implicits.
Arguments Timing : clear implicits.
Arguments Exchange : clear implicits.
Arguments LogEntry : clear implicits.
Arguments FileContent : clear implicits.
Arguments Observer : clear implicits.
Arguments MergedRequest : clear implicits.
Arguments RoleEntry : clear implicits.
Arguments MergedMetrics : clear implicits.
Arguments FileSystem : clear implicits.

(** ** An instance and sample inputs *)

(** Times as exact rationals. *)
#[export] Instance Q_JsNumber : JsNumber Q := {|
  nzero := 0%Q;
  nadd := Qplus;
  nsub := Qminus;
  ndiv := Qdiv;
  ngtb a b := negb (Qle_bool a b);
  of_count n := inject_Z (Z.of_nat n)
|}.

Module Sample.

(** The configuration of molly.config.ts. *)
Definition cfg : Config Q := {| URLQuery := ["graphql"]; threshold_ms := 2000%Q |}.

Definition exchange (u : string) (finished : Q) (r : ResponseResult) : Exchange Q :=
  {| url := u;
     timing := {| requestStart := 0%Q; responseEnd := finished |};
     response := r;
     allHeaders := [];
     postDataJSON := Some {| operationName := OpString "GetUser"; payload := "" |} |}.

Definition reply (code : Z) (b : option string) : Response :=
  {| status := code; response_url := "https://app.test/graphql";
     response_allHeaders := []; body := b |}.

(** A failing exchange whose body cannot be read. *)
Definition torn_down : Exchange Q :=
  exchange "https://app.test/graphql" 120%Q (Resolved (reply 500 None)).

Definition fast_ok : Exchange Q :=
  exchange "https://app.test/graphql" 100%Q (Resolved (reply 200 (Some "{}"))).

Definition slow_ok : Exchange Q :=
  exchange "https://app.test/graphql" 3000%Q (Resolved (reply 200 (Some "{}"))).

Definition failing : Exchange Q :=
  exchange "https://app.test/graphql" 100%Q (Resolved (reply 500 (Some "oops"))).

Definition unmonitored : Exchange Q :=
  exchange "https://cdn.test/logo.png" 5000%Q (Resolved (reply 404 (Some ""))).

(** Ten monitored exchanges of which two are recorded. *)
Definition ten_matched : list (Exchange Q) :=
  [fast_ok; fast_ok; slow_ok; fast_ok; fast_ok; fast_ok; failing; fast_ok; fast_ok; fast_ok].

Definition overall (n : nat) : OverallInformation Q :=
  {| avgResponseTime := 0%Q; totalRequests := n; totalTime := 0%Q; contextTime := 0%Q |}.

Definition merged (u : string) (code : Z) (b : string) : MergedRequest Q :=
  {| mStatusCode := code; mRequestUrl := u; mRequestHeaders := [];
     mRequestBody := None; mResponseUrl := u; mResponseHeaders := [];
     mResponseBody := b; mResponseTime := 0%Q; mResponseStatusCode := code |}.

(** Two traces of the role "user", with 5 and with 8 requests in total. *)
Definition file_A : string * FileContent Q :=
  ("user_metrics_report_1.json", TraceJson (overall 5) (Some [])).

Definition file_B : string * FileContent Q :=
  ("user_metrics_report_2.json", TraceJson (overall 8) (Some [])).

Definition two_files : FileSystem Q :=
  {| store := Some [file_A; file_B]; reports := [] |}.

(** A resource bucket with three failures of "/a". *)
Definition rest_role : RoleEntry Q :=
  {| roleOverallInformation := overall 3;
     operations := ∅;
     restRequests := [merged "/a" 404 "x"; merged "/a" 404 "x"; merged "/a" 500 "x"] |}.

Definition rest_report : MergedMetrics Q :=
  {| roles := [("user", rest_role)]; errors := None |}.

(** An operation with one 404 and then one 500. *)
Definition tie_operation : list (MergedRequest Q) :=
  [merged "https://app.test/graphql" 404 "x"; merged "https://app.test/graphql" 500 "x"].

Definition tie_report : MergedMetrics Q :=
  {| roles := [("user", {| roleOverallInformation := overall 2;
                           operations := {[ "GetUser" := tie_operation ]};
                           restRequests := [] |})];
     errors := None |}.

(** The operation "GetUser" failing under "admin", then slow but
    successful under "user". *)
Definition admin_operation : list (MergedRequest Q) :=
  [merged "https://app.test/graphql" 500 "boom"].

Definition user_operation : list (MergedRequest Q) :=
  [merged "https://app.test/graphql" 200 "fine"].

Definition admin_role : RoleEntry Q :=
  {| roleOverallInformation := overall 1;
     operations := {[ "GetUser" := admin_operation ]};
     restRequests := [merged "/a" 500 "x"] |}.

Definition user_role : RoleEntry Q :=
  {| roleOverallInformation := overall 1;
     operations := {[ "GetUser" := user_operation ]};
     restRequests := [merged "/a" 404 "x"] |}.

Definition two_roles : MergedMetrics Q :=
  {| roles := [("admin", admin_role); ("user", user_role)]; errors := None |}.

End Sample.

From Stdlib Require Import Qround.

(** * Further notions: what the merge keeps of the traces *)

Section MergeNotions.

Context {num : Type}.

(** The role the merge reads off a file name. *)
Definition role_of (file : string * FileContent num) : string :=
  split_head "_" (fst file).

(** [JSON.parse] succeeds on the file. *)
Definition parses (file : string * FileContent num) : bool :=
  match snd file with
  | TraceJson _ _ => true
  | NotJson _ => false
  end.

(** A trace of the role is among the files. *)
Definition has_trace (role : string) (files : list (string * FileContent num)) : bool :=
  existsb (fun file => parses file && bool_decide (role_of file = role)) files.

(** The requests of the traces of a role, in the order the merge reads them. *)
Definition trace_requests (role : string) (files : list (string * FileContent num)) : list (RequestData num) :=
  flat_map
    (fun file =>
       match snd file with
       | TraceJson _ (Some l) => if bool_decide (role_of file = role) then l else []
       | _ => []
       end)
    files.

(** The copy a request leaves in the resource bucket: one or none. *)
Definition rest_copy (request : RequestData num) : list (MergedRequest num) :=
  match responseBody request with
  | Some b => if includes (requestUrl request) "graphql" then [] else [copy_request request b]
  | None => []
  end.

(** The copy a request leaves in the bucket of the operation [name]. *)
Definition gql_copy (name : string) (request : RequestData num) : list (MergedRequest num) :=
  match responseBody request, requestBody request with
  | Some b, Some rb =>
      if includes (requestUrl request) "graphql"
         && bool_decide (operation_key (operationName rb) = name)
      then [copy_request request b]
      else []
  | _, _ => []
  end.

(** What one request does to the entry of its role. *)
Definition merge_entry (e : RoleEntry num) (request : RequestData num) : RoleEntry num :=
  match responseBody request with
  | None => e
  | Some b =>
      if includes (requestUrl request) "graphql" then
        match requestBody request with
        | None => e
        | Some rb => push_operation (operation_key (operationName rb)) (copy_request request b) e
        end
      else push_rest (copy_request request b) e
  end.

(** What one file does to the entry of the role [k]. *)
Definition entry_after_file (prev : option (RoleEntry num)) (file : string * FileContent num) (k : string) : option (RoleEntry num) :=
  match snd file with
  | NotJson _ => prev
  | TraceJson o reqs =>
      if bool_decide (role_of file = k)
      then Some (fold_left merge_entry (default [] reqs) (default (seed_role o) prev))
      else prev
  end.

(** The requests a bucket holds after [add] was pushed onto [prev]. *)
Definition bucket_add (prev : option (list (MergedRequest num))) (add : list (MergedRequest num)) : option (list (MergedRequest num)) :=
  match add with
  | [] => prev
  | _ :: _ => Some (default [] prev ++ add)
  end.

(** The log entry is the warning about an unparseable file. *)
Definition is_cannot_parse (l : LogEntry num) : bool :=
  match l with
  | WarnCannotParse _ => true
  | _ => false
  end.

(** What the merge guarantees of a request [m] found in a bucket of the role
    [role]: it is the copy of a request of a trace of that role whose
    response body is present, with responseStatusCode set to statusCode. *)
Definition copied_from (files : list (string * FileContent num)) (role : string) (m : MergedRequest num) : Prop :=
  mResponseStatusCode m = mStatusCode m
  /\ exists request,
       In request (trace_requests role files)
       /\ responseBody request = Some (mResponseBody m)
       /\ m = copy_request request (mResponseBody m).

End MergeNotions.

(** * Further notions: sessions *)

Section SessionNotions.

Context {num : Type}.

(** The driver delivered the response of the exchange. *)
Definition has_response (data : Exchange num) : bool :=
  match response data with
  | Resolved _ => true
  | _ => false
  end.

(** The record was kept although its body could not be read. *)
Definition without_body (d : RequestData num) : bool :=
  match responseBody d with
  | None => true
  | Some _ => false
  end.

Definition is_no_buffer_warning (l : LogEntry num) : bool :=
  match l with
  | WarnNoResponseBuffer _ => true
  | _ => false
  end.

End SessionNotions.

(** * Post-processing: PostProcesses of common/utils/postProcesses.ts *)

Section PostProcesses.

Context {num : Type}.

(** [new Metrics()]: the constructor creates the directories that are
    missing; of them the trace store is part of the file system here. *)
Definition Metrics_constructor (fs : FileSystem num) : FileSystem num :=
  {| store := Some (default [] (store fs)); reports := reports fs |}.

(** The log of [process]: what the merge logs, and its own two warnings. *)
Inductive ProcessLog :=
  | MergeLog (l : LogEntry num)
  | WarnInvalidParameters
  | WarnMetricsError.

(** How [process] ends: its promise resolves, or [showUsage] exits. *)
Inductive ProcessEnd :=
  | ProcessResolved
  | ProcessExit (code : Z).

(** [process(module, env, mergeNetworkTraces)]; [module] and [env] are
    strings or undefined. *)
Definition process (module env : option string) (mergeNetworkTracesFlag : bool) (stamp : string) (fs : FileSystem num) : ProcessEnd * FileSystem num * list ProcessLog :=
  match module, env with
  | Some _, Some _ =>
      if mergeNetworkTracesFlag then
        match mergeNetworkTraces stamp fs with
        | (Returned, fs', lg) => (ProcessResolved, fs', map MergeLog lg)
        | (ThrewTypeError, fs', lg) =>
            (ProcessResolved, fs', map MergeLog lg ++ [WarnMetricsError])
        end
      else (ProcessResolved, fs, [])
  | _, _ => (ProcessExit 1, fs, [WarnInvalidParameters])
  end.

(** [new PostProcesses().process(...)], as the script runs it. *)
Definition run_PostProcesses (module env : option string) (mergeNetworkTracesFlag : bool) (stamp : string) (fs : FileSystem num) : ProcessEnd * FileSystem num * list ProcessLog :=
  process module env mergeNetworkTracesFlag stamp (Metrics_constructor fs).

End PostProcesses.

Arguments ProcessLog : clear implicits.

(** * Debug ports: Metrics.getFreeDebugPort *)

Module Ports.

Definition minPort : Z := 49152.
Definition maxPort : Z := 65535.

(** [Math.floor(Math.random() * (maxPort - minPort + 1)) + minPort] for a
    draw [r] of [Math.random()].  The factor is a power of two, so that the
    product of doubles is the exact one. *)
Definition randomPort (r : Q) : Z :=
  (Qfloor (r * inject_Z (maxPort - minPort + 1)) + minPort)%Z.

(** What [Math.random()] returns: a number in [0, 1). *)
Definition is_draw (r : Q) : Prop := (0 <= r)%Q /\ (r < 1)%Q.

(** [getFreeDebugPort()] on the draws [Math.random()] makes and the set
    [usedPorts]: the port returned and the set after, or [None] when the
    loop is still running after the draws given. *)
Fixpoint getFreeDebugPort (draws : list Q) (usedPorts : gset Z) : option (Z * gset Z) :=
  match draws with
  | [] => None
  | r :: draws' =>
      if decide (randomPort r ∈ usedPorts)
      then getFreeDebugPort draws' usedPorts
      else Some (randomPort r, {[randomPort r]} ∪ usedPorts)
  end.

End Ports.

(** * MollyHelper and Utils: functions on strings *)

Module Helper.

(** [s.split(c)] for a one-character separator: the parts, at least one. *)
Fixpoint split (c : ascii) (s : string) : list string :=
  match s with
  | EmptyString => [EmptyString]
  | String x s' =>
      if bool_decide (x = c) then EmptyString :: split c s'
      else
        match split c s' with
        | p :: ps => String x p :: ps
        | [] => [String x EmptyString]
        end
  end.

(** [l.indexOf(x)]: the first index of [x], -1 without one. *)
Fixpoint indexOf (x : string) (l : list string) : Z :=
  match l with
  | [] => -1
  | y :: l' =>
      if bool_decide (y = x) then 0
      else let i := indexOf x l' in if (i <? 0)%Z then -1 else i + 1
  end%Z.

(** [l[i]] for an integer [i]: undefined out of range. *)
Definition at_index (l : list string) (i : Z) : option string :=
  if (i <? 0)%Z then None else l !! Z.to_nat i.

(** [v || null] for a string or undefined. *)
Definition string_or_null (v : option string) : option string :=
  match v with
  | Some s => if truthy_string s then Some s else None
  | None => None
  end.

(** [process.platform]. *)
Inductive Platform :=
  | Win32
  | Linux
  | Darwin
  | OtherPlatform.

(** The separator the switch of getModuleName splits with; none for the
    platforms it has no case for. *)
Definition separator (p : Platform) : option ascii :=
  match p with
  | Win32 => Some backslash
  | Linux | Darwin => Some "/"%char
  | OtherPlatform => None
  end.

Definition line_feed : ascii := ascii_of_N 10.

(** [MollyHelper.getModuleName()] on the text of [new Error().stack] and the
    platform: the module name or null, and whether the macOS warning was
    logged.  Without a case for the platform [parts] stays undefined and
    [parts.indexOf] raises, which the catch turns into null. *)
Definition getModuleName (stack : string) (platform : Platform) : option string * bool :=
  match List.find (fun line => includes line "modules") (split line_feed stack) with
  | None => (None, false)
  | Some fullPath =>
      let warned := match platform with Darwin => true | _ => false end in
      match separator platform with
      | Some sep =>
          let parts := split sep fullPath in
          let moduleIndex := indexOf "modules" parts in
          (string_or_null (at_index parts (moduleIndex + 1)), warned)
      | None => (None, warned)
      end
  end.

(** [buffer.toString('hex')]: two lower-case digits for each byte. *)
Definition hex_byte (b : ascii) : string :=
  String (hex_digit (N_of_ascii b / 16)) (String (hex_digit (N_of_ascii b mod 16)) EmptyString).

Fixpoint toString_hex (bytes : list ascii) : string :=
  match bytes with
  | [] => EmptyString
  | b :: bytes' => hex_byte b +:+ toString_hex bytes'
  end.

(** [s.slice(0, n)] and [s.substring(0, n)] for a count [n]: the first [n]
    characters, all of [s] when it is shorter. *)
Fixpoint slice0 (n : nat) (s : string) : string :=
  match n, s with
  | S n', String x s' => String x (slice0 n' s')
  | _, _ => EmptyString
  end.

(** [MollyHelper.generateRandomString(length)] on the bytes that
    [crypto.randomBytes(length)] delivers, [length] of them. *)
Definition generateRandomString (randomBytes : list ascii) : string :=
  slice0 (length randomBytes) (toString_hex randomBytes).

Definition is_hex_digit (c : ascii) : Prop :=
  In c (String.list_ascii_of_string "0123456789abcdef").

(** The loop of [Utils.generateHackerJargon]: [phrase] so far and the phrases
    faker will deliver next; [None] when the loop is still running after
    them. *)
Fixpoint jargon_loop (charCount : nat) (phrase : string) (next : list string) : option string :=
  if String.length phrase <? charCount then
    match next with
    | [] => None
    | p :: next' => jargon_loop charCount (phrase +:+ " " +:+ p) next'
    end
  else Some phrase.

(** [generateHackerJargon(charCount)] on the phrases [faker.hacker.phrase()]
    delivers, in order. *)
Definition generateHackerJargon (charCount : nat) (phrases : list string) : option string :=
  match phrases with
  | [] => None
  | p :: next => slice0 charCount <$> jargon_loop charCount p next
  end.

End Helper.

(** * Global setup: loadEnv of common/utils/globalSetup.ts *)

Section GlobalSetup.

(** [String.prototype.toLowerCase], about which nothing is assumed. *)
Variable toLowerCase : string -> string.

Inductive SetupLog :=
  | WarnEnvFileNotFound (stage module : string).

(** The name of the env file of a stage, in each module's directory. *)
Definition env_file_name (stage : string) : string := ".env." +:+ toLowerCase stage.

(** One step of [for (const module of modules)]: [envFile module name] is
    what [dotenv.parse] reads from the file [name] of the module's directory,
    [None] when the file does not exist. *)
Definition load_module (envFile : string -> string -> option (gmap string string)) (stage : string) (acc : gmap string string * list SetupLog) (module : string) : gmap string string * list SetupLog :=
  match envFile module (env_file_name stage) with
  | None => (fst acc, snd acc ++ [WarnEnvFileNotFound stage module])
  | Some envConfig => (envConfig ∪ fst acc, snd acc)
  end.

(** The stage whose files are looked up: a stage containing "local" cut at
    its first hyphen. *)
Definition stage_of_files (stage : string) : string :=
  if includes stage "local" then split_head "-" stage else stage.

(** [loadEnv(stage)] on the enabled environments of the configuration, the
    module directories [readdirSync] lists and [process.env]: the
    environment after and the warnings, or [None] when [log.error] throws
    for a stage that is not enabled. *)
Definition loadEnv (enabled modules : list string) (envFile : string -> string -> option (gmap string string)) (stage : string) (processEnv : gmap string string) : option (gmap string string * list SetupLog) :=
  if bool_decide (toLowerCase stage ∈ enabled) then
    let stage' := stage_of_files stage in
    let merged := fold_left (load_module envFile stage') modules (∅, []) in
    Some (fst merged ∪ processEnv, snd merged)
  else None.

(** The module has no env file of the stage. *)
Definition lacks_env_file (envFile : string -> string -> option (gmap string string)) (stage module : string) : bool :=
  match envFile module (env_file_name stage) with
  | None => true
  | Some _ => false
  end.

End GlobalSetup.

(** Inputs on which the added code is run. *)
Module Setup.

(** Lower case of the letters A to Z. *)
Definition lower_char (c : ascii) : ascii :=
  let n := N_of_ascii c in
  if ((65 <=? n) && (n <=? 90))%N then ascii_of_N (n + 32) else c.

Fixpoint lower (s : string) : string :=
  match s with
  | EmptyString => EmptyString
  | String c s' => String (lower_char c) (lower s')
  end.

(** The enabled environments of molly.config.ts. *)
Definition enabled : list string := ["local-kv-test"; "local-kv-int"; "test"; "int"].

Definition modules : list string := ["kv"; "shop"; "tools"].

(** Both "kv" and "shop" have a file .env.local defining BASE_URL; "tools"
    has no env file. *)
Definition envFile (module name : string) : option (gmap string string) :=
  if bool_decide (name = ".env.local") then
    if bool_decide (module = "kv") then
      Some {[ "BASE_URL" := "http://localhost:3000"; "KV_TOKEN" := "t" ]}
    else if bool_decide (module = "shop") then
      Some {[ "BASE_URL" := "http://localhost:4000" ]}
    else None
  else None.

Definition processEnv : gmap string string :=
  {[ "BASE_URL" := "http://ci"; "test_env" := "local-kv-test" ]}.

(** A stack whose first line with "modules" is a test of the module "shop"
    run from below a node_modules directory. *)
Definition stack_of_module : string :=
  "Error" +:+ String Helper.line_feed
  ("    at Fixture.use (/home/ci/node_modules/molly/modules/shop/tests/cart.spec.ts:12:3)"
   +:+ String Helper.line_feed "    at run (/home/ci/modules/kv/a.ts:1:1)").

(** A stack whose first line with "modules" lies in node_modules. *)
Definition stack_of_dependency : string :=
  "Error" +:+ String Helper.line_feed
  "    at expect (/home/ci/node_modules/playwright/lib/index.js:88:10)".

(** All the ports getFreeDebugPort chooses from. *)
Definition all_ports : gset Z := list_to_set (seqZ Ports.minPort (Ports.maxPort - Ports.minPort + 1)).

End Setup.

(** * Properties *)

Section Properties.

Context {num : Type} `{!JsNumber num}.

(** ** Strings *)

Lemma starts_with_spec (q s : string) :
  starts_with q s = true <-> exists post, s = q +:+ post.
Proof.
  revert s. induction q as [|a q IH]; intros s; simpl.
  - split; [intros _; by exists s | done].
  - destruct s as [|b s]; simpl.
    + split; [done | intros [post Hpost]; discriminate].
    + rewrite andb_true_iff, bool_decide_eq_true, IH. split.
      * intros [-> [post ->]]. by exists post.
      * intros [post Hpost]. injection Hpost as -> ->. split; [done | by exists post].
Qed.

Lemma includes_spec (s q : string) :
  includes s q = true <-> occurs_in q s.
Proof.
  unfold occurs_in. induction s as [|a s IH]; simpl.
  - rewrite orb_false_r, starts_with_spec. split.
    + intros [post Hpost]. by exists "", post.
    + intros [[|b pre] [post Hpost]]; [by exists post | discriminate].
  - rewrite orb_true_iff, starts_with_spec, IH. split.
    + intros [[post Hpost] | (pre & post & ->)].
      * by exists "", post.
      * by exists (String a pre), post.
    + intros [[|b pre] [post Hpost]].
      * left. by exists post.
      * right. injection Hpost as -> ->. by exists pre, post.
Qed.

Lemma url_matches_spec (cfg : Config num) (u : string) :
  url_matches cfg u = true <-> monitored_url cfg u.
Proof.
  unfold url_matches, monitored_url. rewrite existsb_exists.
  by setoid_rewrite includes_spec.
Qed.

Lemma url_matches_false (cfg : Config num) (u : string) :
  ~ monitored_url cfg u -> url_matches cfg u = false.
Proof.
  intros Hno. destruct (url_matches cfg u) eqn:Hm; [|done].
  by apply url_matches_spec in Hm.
Qed.

(** ** Session observer *)

Lemma slow_or_failing_spec (cfg : Config num) (data : Exchange num) (r : Response) :
  slow_or_failing cfg data r = true <->
  monitored_url cfg (url data)
    /\ (status r <> 200%Z \/ ngtb (response_time data) (threshold_ms cfg) = true).
Proof.
  unfold slow_or_failing.
  rewrite andb_true_iff, orb_true_iff, negb_true_iff, bool_decide_eq_false.
  by rewrite url_matches_spec.
Qed.

Lemma record_exchange_requests (cfg : Config num) (st : Observer num) (data : Exchange num) (r : Response) :
  requests (collectedData (record_exchange cfg st data r)) =
  requests (collectedData st)
    ++ (if slow_or_failing cfg data r then [dataObject data r (body r)] else []).
Proof.
  unfold record_exchange.
  destruct (slow_or_failing cfg data r), (url_matches cfg (url data)), (body r);
    simpl; by rewrite ?app_nil_r.
Qed.

Lemma record_exchange_overall (cfg : Config num) (st : Observer num) (data : Exchange num) (r : Response) :
  let o := overallInformation (collectedData st) in
  let o' := overallInformation (collectedData (record_exchange cfg st data r)) in
  totalRequests o' = (if url_matches cfg (url data) then S (totalRequests o) else totalRequests o)
  /\ totalTime o' =
       (if url_matches cfg (url data) then nadd (totalTime o) (response_time data)
        else totalTime o).
Proof.
  unfold record_exchange.
  destruct (slow_or_failing cfg data r), (url_matches cfg (url data)), (body r);
    simpl; done.
Qed.

Lemma on_requestfinished_requests (cfg : Config num) (st : Observer num) (data : Exchange num) :
  requests (collectedData (fst (on_requestfinished cfg st data))) =
  requests (collectedData st) ++ recorded cfg data.
Proof.
  unfold on_requestfinished, recorded.
  destruct (response data) as [r| |[m|s]]; simpl.
  - apply record_exchange_requests.
  - by rewrite app_nil_r.
  - by rewrite app_nil_r.
  - destruct (includes s context_closed_message); simpl; by rewrite app_nil_r.
Qed.

Lemma on_requestfinished_overall (cfg : Config num) (st : Observer num) (data : Exchange num) :
  let o := overallInformation (collectedData st) in
  let o' := overallInformation (collectedData (fst (on_requestfinished cfg st data))) in
  totalRequests o' = (if monitored cfg data then S (totalRequests o) else totalRequests o)
  /\ totalTime o' =
       (if monitored cfg data then nadd (totalTime o) (response_time data) else totalTime o).
Proof.
  unfold on_requestfinished, monitored.
  destruct (response data) as [r| |[m|s]]; simpl; try done.
  - apply record_exchange_overall.
  - by destruct (includes s context_closed_message).
Qed.

Lemma observe_from_requests (cfg : Config num) (events : list (Exchange num)) (st : Observer num) :
  requests (collectedData
    (fold_left (fun st data => fst (on_requestfinished cfg st data)) events st)) =
  requests (collectedData st) ++ flat_map (recorded cfg) events.
Proof.
  revert st. induction events as [|data events IH]; intros st; simpl.
  - by rewrite app_nil_r.
  - by rewrite IH, on_requestfinished_requests, <- app_assoc.
Qed.

Lemma observe_from_overall (cfg : Config num) (events : list (Exchange num)) (st : Observer num) :
  let o := overallInformation (collectedData st) in
  let o' := overallInformation (collectedData
    (fold_left (fun st data => fst (on_requestfinished cfg st data)) events st)) in
  totalRequests o' = totalRequests o + length (List.filter (monitored cfg) events)
  /\ totalTime o' =
       fold_left nadd (map response_time (List.filter (monitored cfg) events)) (totalTime o).
Proof.
  revert st. induction events as [|data events IH]; intros st; simpl.
  - split; [lia | done].
  - destruct (IH (fst (on_requestfinished cfg st data))) as [IHn IHt].
    destruct (on_requestfinished_overall cfg st data) as [Hn Ht].
    simpl in *. rewrite IHn, IHt, Hn, Ht.
    destruct (monitored cfg data); simpl; split; (lia || done).
Qed.

Lemma observe_requests (cfg : Config num) (events : list (Exchange num)) :
  requests (collectedData (observe cfg events)) = flat_map (recorded cfg) events.
Proof. unfold observe. by rewrite observe_from_requests. Qed.

Lemma observe_overall (cfg : Config num) (events : list (Exchange num)) :
  let o := overallInformation (collectedData (observe cfg events)) in
  let matched := List.filter (monitored cfg) events in
  totalRequests o = length matched /\ totalTime o = total_time matched.
Proof.
  unfold observe, total_time.
  destruct (observe_from_overall cfg events initial) as [Hn Ht]. simpl in *.
  by rewrite Hn, Ht.
Qed.

(** C1: while a session is observed, an exchange (whose response the driver
    delivered) gets a RequestRecord appended to the trace if and only if its
    URL contains a configured URLQuery substring and its status code is not
    200 or its response time exceeds threshold_ms; the record is the one
    built from the exchange, nothing is appended otherwise, and an exchange
    whose URL contains no URLQuery substring changes neither totalRequests
    nor totalTime. *)
Theorem C1_record_iff_monitored_and_slow_or_failing
  (cfg : Config num) (st : Observer num) (data : Exchange num) (r : Response) :
  response data = Resolved r ->
  let st' := fst (on_requestfinished cfg st data) in
  let qualifies :=
    monitored_url cfg (url data)
      /\ (status r <> 200%Z \/ ngtb (response_time data) (threshold_ms cfg) = true) in
  ((exists d, requests (collectedData st') = requests (collectedData st) ++ [d])
     <-> qualifies)
  /\ (qualifies ->
      requests (collectedData st') =
      requests (collectedData st) ++ [dataObject data r (body r)])
  /\ (~ qualifies -> requests (collectedData st') = requests (collectedData st))
  /\ (~ monitored_url cfg (url data) ->
      totalRequests (overallInformation (collectedData st')) =
        totalRequests (overallInformation (collectedData st))
      /\ totalTime (overallInformation (collectedData st')) =
           totalTime (overallInformation (collectedData st))).
Proof.
  intros Hr st' qualifies.
  assert (Hreq : requests (collectedData st') =
                 requests (collectedData st)
                   ++ (if slow_or_failing cfg data r
                       then [dataObject data r (body r)] else [])).
  { subst st'. unfold on_requestfinished. rewrite Hr. apply record_exchange_requests. }
  assert (Hyes : qualifies ->
                 requests (collectedData st') =
                 requests (collectedData st) ++ [dataObject data r (body r)]).
  { intros Hq. apply slow_or_failing_spec in Hq. by rewrite Hreq, Hq. }
  assert (Hno : ~ qualifies ->
                requests (collectedData st') = requests (collectedData st)).
  { intros Hq. rewrite Hreq. destruct (slow_or_failing cfg data r) eqn:Hs.
    - by apply slow_or_failing_spec in Hs.
    - by rewrite app_nil_r. }
  split; [split | split; [exact Hyes | split; [exact Hno |]]].
  - intros [d Hd]. destruct (slow_or_failing cfg data r) eqn:Hs.
    + by apply slow_or_failing_spec.
    + rewrite Hreq, app_nil_r in Hd. apply (f_equal length) in Hd.
      rewrite length_app in Hd. simpl in Hd. lia.
  - intros Hq. eexists. by apply Hyes.
  - intros Hm. subst st'. unfold on_requestfinished. rewrite Hr. simpl.
    destruct (record_exchange_overall cfg st data r) as [Hn Ht].
    simpl in Hn, Ht. by rewrite Hn, Ht, url_matches_false.
Qed.

(** C2: when the session ends, a trace file is written if and only if at
    least one RequestRecord was captured; the written trace carries the
    captured records, counts every exchange that passed the URL filter in
    totalRequests and totalTime, and its avgResponseTime is that totalTime
    divided by that totalRequests, however few records were kept. *)
Theorem C2_trace_written_iff_captured_average_over_monitored
  (cfg : Config num) (role : string) (now : N) (events : list (Exchange num)) :
  let written := fst (monitorNetworkTraffic cfg role now events) in
  let captured := flat_map (recorded cfg) events in
  let matched := List.filter (monitored cfg) events in
  requests (collectedData (observe cfg events)) = captured
  /\ ((exists file, written = Some file) <-> captured <> [])
  /\ (forall name content, written = Some (name, content) ->
      name = trace_file_name role now
      /\ exists o,
           content = TraceJson o (Some captured)
           /\ totalRequests o = length matched
           /\ totalTime o = total_time matched
           /\ avgResponseTime o = ndiv (total_time matched) (of_count (length matched))).
Proof.
  intros written captured matched.
  pose proof (observe_requests cfg events) as Hreq.
  destruct (observe_overall cfg events) as [Hn Ht].
  fold captured in Hreq. fold matched in Hn, Ht.
  subst written. unfold monitorNetworkTraffic, on_close.
  split; [exact Hreq|].
  destruct (requests (collectedData (observe cfg events))) as [|d l] eqn:Hc;
    rewrite <- Hreq; simpl.
  - split; [split; [intros [file ?]; done | done] | done].
  - split; [split; [done | intros _; eauto] |].
    intros name content [= <- <-]. split; [done|].
    eexists. unfold serialize, with_average. simpl.
    rewrite Hc, Hn, Ht. done.
Qed.

(** C5, as the code has it: when the body of a monitored, slow or failing
    exchange cannot be read, the listener logs a warning and still completes,
    and the exchange is recorded all the same: its RequestRecord is appended
    to the trace with responseBody absent. *)
Theorem C5_unreadable_body_recorded_without_body
  (cfg : Config num) (st : Observer num) (data : Exchange num) (r : Response) :
  response data = Resolved r ->
  body r = None ->
  monitored_url cfg (url data) ->
  status r <> 200%Z \/ ngtb (response_time data) (threshold_ms cfg) = true ->
  let result := on_requestfinished cfg st data in
  snd result = Completed
  /\ log (fst result) = log st ++ [WarnNoResponseBuffer (url data)]
  /\ is_warning (WarnNoResponseBuffer (num := num) (url data)) = true
  /\ requests (collectedData (fst result)) =
       requests (collectedData st) ++ [dataObject data r None]
  /\ responseBody (dataObject data r None) = None.
Proof.
  intros Hr Hb Hm Hs result.
  assert (Hq : slow_or_failing cfg data r = true) by by apply slow_or_failing_spec.
  subst result. unfold on_requestfinished. rewrite Hr. simpl.
  unfold record_exchange. rewrite Hq, Hb.
  by destruct (url_matches cfg (url data)).
Qed.

(** ** Error classifier: it always returns *)

Lemma rest_key_unpopulated (e : Errors) (u : string) :
  errors_property e ("rest-" +:+ u) = None.
Proof.
  unfold errors_property.
  rewrite !bool_decide_eq_false_2; [done | discriminate | discriminate].
Qed.

Lemma classify_rest_returns (e : Errors) (request : MergedRequest num) :
  exists e', classify_rest e request = Some e'.
Proof.
  unfold classify_rest. rewrite rest_key_unpopulated. simpl.
  destruct (negb _); [|eauto].
  destruct (errors_rest e !! mRequestUrl request); eauto.
Qed.

Lemma classify_rest_requests_returns (l : list (MergedRequest num)) (e : Errors) :
  exists e', classify_rest_requests e l = Some e'.
Proof.
  revert e. induction l as [|request l IH]; intros e; simpl; [eauto|].
  destruct (classify_rest_returns e request) as [e1 ->]. apply IH.
Qed.

Lemma classify_roles_returns (rs : list (string * RoleEntry num)) (e : Errors) :
  exists e', classify_roles e rs = Some e'.
Proof.
  revert e. induction rs as [|[name role] rs IH]; intros e; simpl; [eauto|].
  unfold classify_role.
  destruct (classify_rest_requests_returns (restRequests role)
              (map_fold classify_operation e (operations role))) as [e1 ->].
  apply IH.
Qed.

Lemma extendJsonWithErrors_returns (rs : list (string * RoleEntry num)) (e0 : option Errors) :
  exists e, extendJsonWithErrors {| roles := rs; errors := e0 |}
            = Some {| roles := rs; errors := Some e |}
            /\ classify_roles (default no_errors e0) rs = Some e.
Proof.
  unfold extendJsonWithErrors. simpl.
  destruct (classify_roles_returns rs (default no_errors e0)) as [e ->]. eauto.
Qed.

(** ** Merge engine *)

Lemma overall_of_alter (f : RoleEntry num -> RoleEntry num) (role k : string) (rs : list (string * RoleEntry num)) :
  (forall e, roleOverallInformation (f e) = roleOverallInformation e) ->
  overall_of (roles_alter f role rs) k = overall_of rs k.
Proof.
  intros Hf. unfold overall_of. induction rs as [|[k' e] rs IH]; simpl; [done|].
  destruct (bool_decide (k' = role)) eqn:Hrole; simpl;
    destruct (bool_decide (k' = k)); simpl; by rewrite ?Hf.
Qed.

Lemma overall_of_snoc (rs : list (string * RoleEntry num)) (role k : string) (e : RoleEntry num) :
  overall_of (rs ++ [(role, e)]) k =
  match overall_of rs k with
  | Some o => Some o
  | None => if bool_decide (role = k) then Some (roleOverallInformation e) else None
  end.
Proof.
  unfold overall_of. induction rs as [|[k' e'] rs IH]; simpl.
  - by destruct (bool_decide (role = k)).
  - by destruct (bool_decide (k' = k)).
Qed.

Lemma merge_request_overall (role k : string) (acc : list (string * RoleEntry num) * list (LogEntry num)) (request : RequestData num) :
  overall_of (fst (merge_request role acc request)) k = overall_of (fst acc) k.
Proof.
  destruct acc as [rs lg]. unfold merge_request.
  destruct (responseBody request); [|done].
  destruct (includes _ _); [destruct (requestBody request); [|done]|];
    simpl; by apply overall_of_alter.
Qed.

Lemma merge_requests_overall (role k : string) (l : list (RequestData num)) (acc : list (string * RoleEntry num) * list (LogEntry num)) :
  overall_of (fst (fold_left (merge_request role) l acc)) k = overall_of (fst acc) k.
Proof.
  revert acc. induction l as [|request l IH]; intros acc; simpl; [done|].
  by rewrite IH, merge_request_overall.
Qed.

(** A file changes the overallInformation of no role that has one, and
    gives its own to its role when that role is new. *)
Lemma merge_file_overall (acc : list (string * RoleEntry num) * list (LogEntry num)) (file : string * FileContent num) (k : string) :
  overall_of (fst (merge_file acc file)) k =
  match overall_of (fst acc) k, snd file with
  | Some o, _ => Some o
  | None, TraceJson o _ =>
      if bool_decide (split_head "_" (fst file) = k) then Some o else None
  | None, NotJson _ => None
  end.
Proof.
  destruct acc as [rs lg], file as [name [text|o reqs]]; unfold merge_file; simpl.
  - by destruct (overall_of rs k).
  - assert (Hseed :
      overall_of
        (match roles_get rs (split_head "_" name) with
         | Some _ => rs
         | None => rs ++ [(split_head "_" name, seed_role o)]
         end) k =
      match overall_of rs k with
      | Some o' => Some o'
      | None => if bool_decide (split_head "_" name = k) then Some o else None
      end).
    { destruct (roles_get rs (split_head "_" name)) as [e|] eqn:Hget.
      - destruct (overall_of rs k) eqn:Hk; [done|].
        case_bool_decide as Hrole; [|done].
        subst k. unfold overall_of in Hk. by rewrite Hget in Hk.
      - by rewrite overall_of_snoc. }
    destruct reqs as [l|]; simpl; [rewrite merge_requests_overall|]; exact Hseed.
Qed.

Lemma merge_files_keep_overall (files : list (string * FileContent num)) (acc : list (string * RoleEntry num) * list (LogEntry num)) (k : string) (o : OverallInformation num) :
  overall_of (fst acc) k = Some o ->
  overall_of (fst (fold_left merge_file files acc)) k = Some o.
Proof.
  revert acc. induction files as [|file files IH]; intros acc Hk; simpl; [done|].
  apply IH. by rewrite merge_file_overall, Hk.
Qed.

(** C3, as the code has it: when the merge processes two trace files of the
    same role (and any files after them), the merged report's
    overallInformation for that role is the one of the file processed first;
    the later file neither replaces it nor adds to it. *)
Theorem C3_first_file_keeps_overallInformation
  (stamp nameA nameB : string) (oA oB : OverallInformation num)
  (reqsA reqsB : option (list (RequestData num)))
  (more : list (string * FileContent num)) (old : list (string * MergedMetrics num)) :
  split_head "_" nameB = split_head "_" nameA ->
  let fs := {| store := Some ((nameA, TraceJson oA reqsA) :: (nameB, TraceJson oB reqsB) :: more);
               reports := old |} in
  exists report entry,
    written_report (mergeNetworkTraces stamp fs) = Some report
    /\ roles_get (roles report) (split_head "_" nameA) = Some entry
    /\ roleOverallInformation entry = oA.
Proof.
  intros Hrole fs. subst fs. unfold mergeNetworkTraces. cbn [store].
  destruct (fold_left merge_file _ _) as [rs lg] eqn:Hfold.
  assert (Ho : overall_of rs (split_head "_" nameA) = Some oA).
  { change rs with (fst (rs, lg)). rewrite <- Hfold. simpl fold_left.
    apply merge_files_keep_overall.
    rewrite merge_file_overall.
    rewrite (merge_file_overall ([], [InfoMerging]) (nameA, TraceJson oA reqsA)).
    unfold overall_of. simpl. by rewrite bool_decide_eq_true_2. }
  destruct (extendJsonWithErrors_returns rs None) as (e & -> & _).
  unfold overall_of in Ho.
  destruct (roles_get rs (split_head "_" nameA)) as [entry|] eqn:Hget; [|done].
  exists {| roles := rs; errors := Some e |}, entry. simpl.
  rewrite last_snoc. simpl. split; [done|]. split; [done|]. by injection Ho.
Qed.

(** ** Occurrence counts and the most-frequent reduction *)

Lemma count_of_bump (k c : Z) (m : counts) :
  count_of (bump k m) c =
  if bool_decide (c = k) then S (count_of m c) else count_of m c.
Proof.
  induction m as [|[k' n] m IH]; simpl.
  - by case_bool_decide.
  - destruct (bool_decide (k = k')) eqn:Hk; simpl.
    + apply bool_decide_eq_true in Hk as ->. by case_bool_decide.
    + apply bool_decide_eq_false in Hk. rewrite IH.
      repeat case_bool_decide; congruence.
Qed.

Lemma keys_bump (k c : Z) (m : counts) :
  c ∈ map fst (bump k m) <-> c = k \/ c ∈ map fst m.
Proof.
  induction m as [|[k' n] m IH]; simpl.
  - rewrite list_elem_of_singleton, elem_of_nil. tauto.
  - case_bool_decide as Hk; simpl; rewrite !elem_of_cons; [|rewrite IH]; subst; tauto.
Qed.

Lemma keys_bump_NoDup (k : Z) (m : counts) :
  NoDup (map fst m) -> NoDup (map fst (bump k m)).
Proof.
  induction m as [|[k' n] m IH]; simpl; intros Hm.
  - apply NoDup_singleton.
  - apply NoDup_cons in Hm as [Hk' Hm].
    case_bool_decide as Hk; simpl; apply NoDup_cons; split; auto.
    rewrite keys_bump. intros [->|?]; done.
Qed.

Lemma fold_bump_spec (codes : list Z) (m : counts) :
  (forall c, count_of (fold_left (fun m c => bump c m) codes m) c
             = count_of m c + occurrences codes c)
  /\ (forall c, c ∈ map fst (fold_left (fun m c => bump c m) codes m)
                <-> c ∈ codes \/ c ∈ map fst m)
  /\ (NoDup (map fst m) -> NoDup (map fst (fold_left (fun m c => bump c m) codes m))).
Proof.
  revert m. unfold occurrences.
  induction codes as [|k codes IH]; intros m; simpl.
  - split; [intros; lia|]. split; [|done]. intros c. rewrite elem_of_nil. tauto.
  - destruct (IH (bump k m)) as (IHc & IHk & IHn). split; [|split].
    + intros c. rewrite IHc, count_of_bump.
      destruct (Z.eq_dec k c) as [->|Hne]; case_bool_decide; (congruence || lia).
    + intros c. rewrite IHk, keys_bump, elem_of_cons. tauto.
    + intros Hm. by apply IHn, keys_bump_NoDup.
Qed.

Lemma tally_count (codes : list Z) (c : Z) :
  count_of (tally codes) c = occurrences codes c.
Proof. unfold tally. by destruct (fold_bump_spec codes []) as (-> & _). Qed.

Lemma tally_keys (codes : list Z) (c : Z) :
  c ∈ map fst (tally codes) <-> c ∈ codes.
Proof.
  unfold tally. destruct (fold_bump_spec codes []) as (_ & -> & _).
  simpl. rewrite elem_of_nil. tauto.
Qed.

Lemma tally_keys_NoDup (codes : list Z) : NoDup (map fst (tally codes)).
Proof.
  unfold tally. destruct (fold_bump_spec codes []) as (_ & _ & Hn).
  apply Hn, NoDup_nil_2.
Qed.

Lemma insert_sorted_elem (k c : Z) (l : list Z) :
  c ∈ insert_sorted k l <-> c = k \/ c ∈ l.
Proof.
  induction l as [|x l IH]; simpl.
  - rewrite list_elem_of_singleton, elem_of_nil. tauto.
  - destruct (k <=? x)%Z; rewrite !elem_of_cons; [|rewrite IH]; tauto.
Qed.

Lemma sort_keys_elem (c : Z) (l : list Z) : c ∈ sort_keys l <-> c ∈ l.
Proof.
  induction l as [|x l IH]; simpl; [done|].
  by rewrite insert_sorted_elem, elem_of_cons, IH.
Qed.

Lemma ascending_cons (x : Z) (l : list Z) :
  ascending l -> Forall (fun c => (x < c)%Z) l -> ascending (x :: l).
Proof.
  intros Hl Hx [|y l1] k l2 Heq; [constructor|].
  injection Heq as <- ->. constructor.
  - rewrite Forall_forall in Hx. apply Hx. set_solver.
  - by eapply Hl.
Qed.

Lemma insert_sorted_ascending (k : Z) (l : list Z) :
  ascending l -> k ∉ l -> ascending (insert_sorted k l).
Proof.
  induction l as [|x l IH]; simpl; intros Hl Hk.
  - apply ascending_cons; [intros [|??] ???; by simplify_list_eq | constructor].
  - assert (Hx : Forall (fun c => (x < c)%Z) l).
    { apply Forall_forall. intros c Hc.
      apply list_elem_of_split in Hc as (l1 & l2 & ->).
      specialize (Hl (x :: l1) c l2 eq_refl). by apply Forall_cons in Hl as [? _]. }
    assert (Hl' : ascending l).
    { intros l1 c l2 ->. specialize (Hl (x :: l1) c l2 eq_refl).
      by apply Forall_cons in Hl as [_ ?]. }
    destruct (k <=? x)%Z eqn:Hle.
    + apply ascending_cons; [done|].
      assert (k < x)%Z by (apply Z.leb_le in Hle; set_solver by lia).
      constructor; [done|]. eapply Forall_impl; [exact Hx|]. simpl. lia.
    + apply Z.leb_gt in Hle. apply ascending_cons.
      * apply IH; [done | set_solver].
      * apply Forall_forall. intros c Hc. apply insert_sorted_elem in Hc as [->|Hc]; [done|].
        rewrite Forall_forall in Hx. by apply Hx.
Qed.

Lemma sort_keys_ascending (l : list Z) : NoDup l -> ascending (sort_keys l).
Proof.
  induction l as [|x l IH]; simpl; intros Hl.
  - intros [|??] ???; by simplify_list_eq.
  - apply NoDup_cons in Hl as [Hx Hl].
    apply insert_sorted_ascending; [by apply IH | by rewrite sort_keys_elem].
Qed.

Lemma Object_keys_elem (m : counts) (c : Z) :
  c ∈ Object_keys m <-> c ∈ map fst m.
Proof.
  unfold Object_keys. rewrite elem_of_app, sort_keys_elem.
  rewrite !list_elem_of_In, !filter_In, <- !list_elem_of_In.
  destruct (is_array_index c); simpl; intuition congruence.
Qed.

Lemma Object_keys_indices (m : counts) :
  Forall (fun c => is_array_index c = true) (map fst m) ->
  Object_keys m = sort_keys (map fst m).
Proof.
  unfold Object_keys. intros Hm.
  assert (Hboth : List.filter is_array_index (map fst m) = map fst m
                  /\ List.filter (fun k => negb (is_array_index k)) (map fst m) = []).
  { induction Hm as [|x l Hx Hl [IH1 IH2]]; simpl; [done|].
    rewrite Hx. simpl. by rewrite IH1, IH2. }
  destruct Hboth as [-> ->]. by rewrite app_nil_r.
Qed.

(** The reduction ends on a key that no earlier key beats and that beats
    every later key. *)
Lemma fold_pick_spec (m : counts) (l : list Z) (k0 : Z) :
  let k := fold_left (pick m) l k0 in
  exists l1 l2,
    k0 :: l = l1 ++ k :: l2
    /\ Forall (fun c => count_of m c <= count_of m k) l1
    /\ Forall (fun c => count_of m c < count_of m k) l2
    /\ count_of m k0 <= count_of m k.
Proof.
  revert k0. induction l as [|b l IH]; intros k0; simpl.
  - exists [], []. repeat split; (constructor || lia).
  - destruct (IH (pick m k0 b)) as (l1 & l2 & Heq & H1 & H2 & H0).
    set (k := fold_left (pick m) l (pick m k0 b)) in *. clearbody k.
    assert (Hp : pick m k0 b = k0 /\ count_of m b < count_of m k0
                 \/ pick m k0 b = b /\ count_of m k0 <= count_of m b).
    { unfold pick. destruct (Nat.ltb_spec (count_of m b) (count_of m k0)); auto. }
    destruct Hp as [[Hp Hlt]|[Hp Hle]]; rewrite Hp in Heq, H0.
    + destruct l1 as [|x l1]; simpl in Heq; injection Heq as Hk Hl.
      * exists [], (b :: l2). simpl. subst. repeat split; try constructor; (done || lia).
      * apply Forall_cons in H1 as [Hx H1].
        exists (x :: b :: l1), l2. simpl. subst. repeat split; try done.
        repeat constructor; (done || lia).
    + exists (k0 :: l1), l2. simpl. rewrite Heq. repeat split; try done; [|lia].
      constructor; [lia | done].
Qed.

Lemma reduce_pick_spec (m : counts) (l : list Z) (k : Z) :
  reduce (pick m) l = Some k ->
  exists l1 l2,
    l = l1 ++ k :: l2
    /\ Forall (fun c => count_of m c <= count_of m k) l1
    /\ Forall (fun c => count_of m c < count_of m k) l2.
Proof.
  destruct l as [|k0 l]; simpl; [done|]. intros [= <-].
  destruct (fold_pick_spec m l k0) as (l1 & l2 & ? & ? & ? & _). eauto.
Qed.

Lemma reduce_pick_max (m : counts) (l : list Z) (k : Z) :
  reduce (pick m) l = Some k ->
  k ∈ l /\ forall c, c ∈ l -> count_of m c <= count_of m k.
Proof.
  intros (l1 & l2 & -> & H1 & H2)%reduce_pick_spec. split; [set_solver|].
  intros c. rewrite elem_of_app, elem_of_cons.
  rewrite Forall_forall in H1. rewrite Forall_forall in H2.
  intros [?|[->|?]]; [by apply H1 | done | by apply Nat.lt_le_incl, H2].
Qed.

Lemma occurrences_zero (l : list Z) (c : Z) : c ∉ l -> occurrences l c = 0.
Proof.
  unfold occurrences. intros Hc. apply count_occ_not_In.
  by rewrite <- list_elem_of_In.
Qed.

Lemma ToString_truthy (z : Z) : truthy_string (ToString z) = true.
Proof.
  assert (Hgo : forall x s, String.length s <= String.length (pretty_N_go x s)).
  { intros x. induction (N.lt_wf_0 x) as [x _ IH]; intros s.
    destruct (decide (x = 0%N)) as [->|Hx]; [by rewrite pretty_N_go_0|].
    rewrite pretty_N_go_step by lia.
    etrans; [|apply IH, N.div_lt; lia]. simpl. lia. }
  assert (HN : forall p, truthy_string (pretty (N.pos p)) = true).
  { intros p. unfold pretty, pretty_N. rewrite decide_False by done.
    rewrite pretty_N_go_step by lia.
    match goal with |- truthy_string (pretty_N_go ?x ?s) = true =>
      pose proof (Hgo x s) as Hlen; destruct (pretty_N_go x s) end;
      simpl in *; [lia | done]. }
  destruct z as [|p|p]; [done | apply HN | done].
Qed.

(** ** Error classifier, remote-call path *)

Lemma set_gql_twice (name : string) (v w : GqlEntry) (e : Errors) :
  set_gql name v (set_gql name w e) = set_gql name v e.
Proof. unfold set_gql. simpl. by rewrite insert_insert_eq. Qed.

Lemma error_codes_elem (operation : list (MergedRequest num)) (request : MergedRequest num) :
  request ∈ operation -> is_error request = true ->
  mResponseStatusCode request ∈ error_codes operation.
Proof.
  intros Hin He. unfold error_codes. apply list_elem_of_In, in_map, filter_In.
  by rewrite <- list_elem_of_In.
Qed.

Lemma gql_summary_spec (operation : list (MergedRequest num)) :
  gql_summary operation =
  match reduce (pick (tally (error_codes operation))) (error_codes operation) with
  | Some c =>
      Some {| gql_count := length (error_codes operation);
              gql_mostCommonStatusCode :=
                or_null (most_common (tally (error_codes operation)));
              gql_allStatusCodes := JNum c |}
  | None => None
  end.
Proof. done. Qed.

Lemma triggers_summary (operation : list (MergedRequest num)) :
  existsb triggers operation = true -> exists s, gql_summary operation = Some s.
Proof.
  intros (request & Hin & Ht)%existsb_exists. apply list_elem_of_In in Hin.
  unfold triggers in Ht. apply andb_true_iff in Ht as [_ He].
  pose proof (error_codes_elem operation request Hin He) as Hc.
  rewrite gql_summary_spec.
  destruct (error_codes operation) as [|c l]; [by apply elem_of_nil in Hc|].
  simpl. eauto.
Qed.

Lemma classify_request_spec (name : string) (operation : list (MergedRequest num)) (e : Errors) (request : MergedRequest num) (s : GqlSummary) :
  gql_summary operation = Some s ->
  classify_request name operation e request =
  if triggers request then set_gql name (Summary s) e else e.
Proof.
  intros Hs. unfold classify_request, triggers. rewrite Hs.
  destruct (truthy_string _), (is_error request); simpl; try done.
  destruct (in_errors name); [done | apply set_gql_twice].
Qed.

Lemma classify_requests_spec (name : string) (operation l : list (MergedRequest num)) (e : Errors) (s : GqlSummary) :
  gql_summary operation = Some s ->
  fold_left (classify_request name operation) l e =
  if existsb triggers l then set_gql name (Summary s) e else e.
Proof.
  intros Hs. revert e. induction l as [|request l IH]; intros e; simpl; [done|].
  rewrite IH, (classify_request_spec _ _ _ _ s Hs).
  destruct (triggers request), (existsb triggers l); simpl; try done.
  apply set_gql_twice.
Qed.

Lemma classify_requests_idle (name : string) (operation l : list (MergedRequest num)) (e : Errors) :
  existsb triggers l = false ->
  fold_left (classify_request name operation) l e = e.
Proof.
  revert e. induction l as [|request l IH]; intros e; simpl; [done|].
  intros [Ht Hl]%orb_false_iff. rewrite <- (IH e Hl) at 2. f_equal.
  unfold classify_request. unfold triggers in Ht.
  by destruct (truthy_string _), (is_error request).
Qed.

Lemma classify_operation_spec (name : string) (operation : list (MergedRequest num)) (e : Errors) :
  classify_operation name operation e =
  match existsb triggers operation, gql_summary operation with
  | true, Some s => set_gql name (Summary s) e
  | _, _ => e
  end.
Proof.
  unfold classify_operation.
  destruct (existsb triggers operation) eqn:Ht.
  - destruct (triggers_summary operation Ht) as [s Hs].
    by rewrite Hs, (classify_requests_spec _ _ _ _ s Hs), Ht.
  - by apply classify_requests_idle.
Qed.

Lemma classify_operations_spec (ops : gmap string (list (MergedRequest num))) (e : Errors) :
  errors_rest (map_fold classify_operation e ops) = errors_rest e
  /\ forall name,
       errors_gql (map_fold classify_operation e ops) !! name =
       gql_step (errors_gql e !! name) ops name.
Proof.
  induction ops as [|i x m Hi Hfirst [IHr IHg]] using map_first_key_ind.
  - rewrite map_fold_empty. split; [done|]. intros name. unfold gql_step.
    by rewrite lookup_empty.
  - rewrite map_fold_insert_first_key by done.
    rewrite classify_operation_spec.
    destruct (existsb triggers x) eqn:Ht.
    + destruct (triggers_summary x Ht) as [s Hs]. rewrite Hs. simpl.
      split; [done|]. intros name. unfold gql_step.
      destruct (decide (i = name)) as [->|Hne].
      * by rewrite !lookup_insert_eq, Ht, Hs.
      * rewrite !lookup_insert_ne by done. apply IHg.
    + split; [done|]. intros name. rewrite IHg. unfold gql_step.
      destruct (decide (i = name)) as [->|Hne].
      * by rewrite lookup_insert_eq, Ht, Hi.
      * by rewrite lookup_insert_ne.
Qed.

(** ** Error classifier, resource path *)

Lemma rest_failures_app (u : string) (l1 l2 : list (MergedRequest num)) :
  rest_failures u (l1 ++ l2) = rest_failures u l1 ++ rest_failures u l2.
Proof. unfold rest_failures. by rewrite List.filter_app, map_app. Qed.

Lemma classify_rest_spec (e e' : Errors) (request : MergedRequest num) :
  classify_rest e request = Some e' ->
  errors_gql e' = errors_gql e
  /\ forall u, errors_rest e' !! u =
               fold_left rest_step (rest_failures u [request]) (errors_rest e !! u).
Proof.
  unfold classify_rest, rest_failures. rewrite rest_key_unpopulated. simpl.
  destruct (negb (bool_decide (mResponseStatusCode request = 200%Z))).
  - destruct (errors_rest e !! mRequestUrl request) as [s|] eqn:Hs;
      intros [= <-]; (split; [done|]); intros u; simpl;
      (destruct (decide (mRequestUrl request = u)) as [<-|Hne];
       [ rewrite bool_decide_eq_true_2 by done; simpl;
         by rewrite lookup_insert_eq, Hs
       | rewrite bool_decide_eq_false_2 by done; simpl;
         by rewrite lookup_insert_ne ]).
  - intros [= <-]. split; [done|]. intros u. by rewrite andb_false_r.
Qed.

Lemma classify_rest_requests_spec (l : list (MergedRequest num)) (e e' : Errors) :
  classify_rest_requests e l = Some e' ->
  errors_gql e' = errors_gql e
  /\ forall u, errors_rest e' !! u =
               fold_left rest_step (rest_failures u l) (errors_rest e !! u).
Proof.
  revert e. induction l as [|request l IH]; intros e; simpl.
  - by intros [= <-].
  - destruct (classify_rest e request) as [e1|] eqn:H1; [|done]. intros Hl.
    destruct (classify_rest_spec _ _ _ H1) as [Hg1 Hr1].
    destruct (IH _ Hl) as [Hg Hr]. split; [congruence|]. intros u.
    change (request :: l) with ([request] ++ l).
    by rewrite rest_failures_app, fold_left_app, Hr, Hr1.
Qed.

Lemma classify_role_spec (e e' : Errors) (role : RoleEntry num) :
  classify_role e role = Some e' ->
  (forall name, errors_gql e' !! name =
                gql_step (errors_gql e !! name) (operations role) name)
  /\ (forall u, errors_rest e' !! u =
                fold_left rest_step (rest_failures u (restRequests role))
                  (errors_rest e !! u)).
Proof.
  unfold classify_role. intros [Hg Hr]%classify_rest_requests_spec.
  destruct (classify_operations_spec (operations role) e) as [Hr0 Hg0].
  split.
  - intros name. by rewrite Hg, Hg0.
  - intros u. by rewrite Hr, Hr0.
Qed.

Lemma classify_roles_spec (rs : list (string * RoleEntry num)) (e e' : Errors) :
  classify_roles e rs = Some e' ->
  (forall name, errors_gql e' !! name =
                fold_left (fun prev p => gql_step prev (operations (snd p)) name) rs
                  (errors_gql e !! name))
  /\ (forall u, errors_rest e' !! u =
                fold_left rest_step (rest_failures u (all_rest rs)) (errors_rest e !! u)).
Proof.
  revert e. induction rs as [|[n role] rs IH]; intros e; simpl.
  - by intros [= <-].
  - destruct (classify_role e role) as [e1|] eqn:H1; [|done]. intros Hrs.
    destruct (classify_role_spec _ _ _ H1) as [Hg1 Hr1].
    destruct (IH _ Hrs) as [Hg Hr]. split.
    + intros name. by rewrite Hg, Hg1.
    + intros u. by rewrite rest_failures_app, fold_left_app, Hr, Hr1.
Qed.

Lemma most_common_empty : most_common [] = JNull.
Proof. done. Qed.

Lemma most_common_single (c : Z) : most_common (tally [c]) = JStr (ToString c).
Proof.
  unfold most_common, tally, Object_keys. simpl.
  by destruct (is_array_index c).
Qed.

Lemma rest_fold_settled (more : list Z) (n : nat) (mc : value) :
  fold_left rest_step more
    (Some {| count := n; mostCommonStatusCode := mc; allStatusCodes := [] |}) =
  Some {| count := n + length more;
          mostCommonStatusCode := match more with [] => mc | _ :: _ => JNull end;
          allStatusCodes := [] |}.
Proof.
  revert n mc. induction more as [|c more IH]; intros n mc; simpl.
  - by rewrite Nat.add_0_r.
  - unfold rest_step at 2. simpl. rewrite ?most_common_empty, IH.
    do 2 f_equal; [lia | by destruct more].
Qed.

Lemma rest_fold_entry (codes : list Z) :
  fold_left rest_step codes None = rest_entry codes.
Proof.
  destruct codes as [|c [|c2 more]]; [done | done |].
  change (fold_left rest_step (c :: c2 :: more) None)
    with (fold_left rest_step more
            (Some {| count := 1 + 1;
                     mostCommonStatusCode := most_common (tally [c]);
                     allStatusCodes := [] |})).
  by rewrite rest_fold_settled, most_common_single.
Qed.

(** The classifier as [mergeNetworkTraces] calls it, on a report without an
    errors section yet: it returns, and every entry of the errors section is
    given by [gql_entry] and [rest_entry]. *)
Lemma extendJsonWithErrors_spec (rs : list (string * RoleEntry num)) :
  exists e,
    extendJsonWithErrors {| roles := rs; errors := None |}
      = Some {| roles := rs; errors := Some e |}
    /\ (forall name, errors_gql e !! name = gql_entry rs name)
    /\ (forall u, errors_rest e !! u = rest_entry (rest_failures u (all_rest rs))).
Proof.
  destruct (extendJsonWithErrors_returns rs None) as (e & He & Hc).
  exists e. split; [done|]. simpl in Hc.
  destruct (classify_roles_spec _ _ _ Hc) as [Hg Hr]. split.
  - intros name. by rewrite Hg.
  - intros u. rewrite Hr. simpl. rewrite lookup_empty. apply rest_fold_entry.
Qed.

(** The most frequent status code as the source computes it: a code of
    highest frequency, the last such key in the order of [Object.keys],
    which for array-index keys is the largest. *)
Lemma most_common_spec (codes : list Z) :
  codes <> [] ->
  exists k l1 l2,
    most_common (tally codes) = JStr (ToString k)
    /\ Object_keys (tally codes) = l1 ++ k :: l2
    /\ k ∈ codes
    /\ (forall c, occurrences codes c <= occurrences codes k)
    /\ Forall (fun c => occurrences codes c < occurrences codes k) l2
    /\ (Forall (fun c => is_array_index c = true) codes ->
        forall c, c ∈ codes -> occurrences codes c = occurrences codes k -> (c <= k)%Z).
Proof.
  intros Hne. set (m := tally codes).
  assert (Hkeys : forall c, c ∈ Object_keys m <-> c ∈ codes).
  { intros c. unfold m. by rewrite Object_keys_elem, tally_keys. }
  destruct (reduce (pick m) (Object_keys m)) as [k|] eqn:Hred.
  2:{ destruct codes as [|c codes]; [done|].
      assert (Hc : c ∈ Object_keys m) by (apply Hkeys; left).
      destruct (Object_keys m); [by apply elem_of_nil in Hc | done]. }
  destruct (reduce_pick_spec _ _ _ Hred) as (l1 & l2 & Heq & H1 & H2).
  assert (Hcount : forall c, count_of m c = occurrences codes c)
    by (intros c; apply tally_count).
  assert (Hk : k ∈ codes).
  { apply Hkeys. rewrite Heq, elem_of_app, elem_of_cons. auto. }
  exists k, l1, l2. unfold most_common. rewrite Hred.
  split; [done|]. split; [done|]. split; [done|].
  rewrite Forall_forall in H1. rewrite Forall_forall in H2.
  split; [|split].
  - intros c. destruct (decide (c ∈ codes)) as [Hc|Hc].
    + apply Hkeys in Hc. rewrite Heq, elem_of_app, elem_of_cons in Hc.
      rewrite <- !Hcount. destruct Hc as [?|[->|?]];
        [by apply H1 | done | by apply Nat.lt_le_incl, H2].
    + rewrite (occurrences_zero _ _ Hc). lia.
  - apply Forall_forall. intros c Hc. rewrite <- !Hcount. by apply H2.
  - intros Hidx c Hc Htie.
    assert (Hsorted : Object_keys m = sort_keys (map fst m)).
    { apply Object_keys_indices, Forall_forall. intros x Hx.
      rewrite Forall_forall in Hidx. apply Hidx. by apply tally_keys. }
    assert (Hasc : ascending (Object_keys m)).
    { rewrite Hsorted. apply sort_keys_ascending, tally_keys_NoDup. }
    specialize (Hasc l1 k l2 Heq). rewrite Forall_forall in Hasc.
    apply Hkeys in Hc. rewrite Heq, elem_of_app, elem_of_cons in Hc.
    destruct Hc as [Hc|[->|Hc]]; [apply Hasc in Hc; lia | lia |].
    apply H2 in Hc. rewrite !Hcount in Hc. lia.
Qed.

Lemma gql_fold_source (rs : list (string * RoleEntry num)) (name : string) (prev : option GqlEntry) (entry : GqlEntry) :
  fold_left (fun prev p => gql_step prev (operations (snd p)) name) rs prev = Some entry ->
  prev = Some entry
  \/ exists p operation s,
       p ∈ rs
       /\ operations (snd p) !! name = Some operation
       /\ existsb triggers operation = true
       /\ gql_summary operation = Some s
       /\ entry = Summary s.
Proof.
  revert prev. induction rs as [|p rs IH]; intros prev; simpl; [auto|].
  intros [Hstep|(q & operation & s & Hq & ?)]%IH.
  - unfold gql_step in Hstep.
    destruct (operations (snd p) !! name) as [operation|] eqn:Hop; [|auto].
    destruct (existsb triggers operation) eqn:Ht; [|auto].
    destruct (gql_summary operation) as [s|] eqn:Hs; [|done].
    injection Hstep as <-. right. exists p, operation, s.
    split; [left | done].
  - right. exists q, operation, s. split; [by right | done].
Qed.

Lemma gql_fold_idle (rs : list (string * RoleEntry num)) (name : string) (prev : option GqlEntry) :
  (forall q operation,
      q ∈ rs -> operations (snd q) !! name = Some operation ->
      existsb triggers operation = false) ->
  fold_left (fun prev p => gql_step prev (operations (snd p)) name) rs prev = prev.
Proof.
  revert prev. induction rs as [|p rs IH]; intros prev Hidle; simpl; [done|].
  rewrite IH by (intros q operation Hq; apply Hidle; by right).
  unfold gql_step. destruct (operations (snd p) !! name) as [operation|] eqn:Hop; [|done].
  by rewrite (Hidle p operation) by (done || left).
Qed.

Lemma rest_failures_total (u : string) (rs : list (string * RoleEntry num)) :
  length (rest_failures u (all_rest rs)) =
  sum_list (map (fun p => length (rest_failures u (restRequests (snd p)))) rs).
Proof.
  unfold all_rest. induction rs as [|p rs IH]; simpl; [done|].
  by rewrite rest_failures_app, length_app, IH.
Qed.

Lemma rest_entry_count (codes : list Z) :
  count <$> rest_entry codes =
  match length codes with
  | 0 => None
  | S n => Some (S n)
  end.
Proof. by destruct codes as [|c [|c2 more]]. Qed.

(** C7, as the code has it, for the remote-call path: mostCommonStatusCode
    is (the property name of) a status code with the highest frequency among
    the erroring requests of the operation the entry was computed from; when
    several codes share that frequency, the one standing last in the order
    in which Object.keys enumerates the frequency map is chosen, and for
    status codes, which are array-index keys, that is the largest of them. *)
Theorem C7_gql_mostCommonStatusCode_last_key_wins (rs : list (string * RoleEntry num)) :
  exists e,
    extendJsonWithErrors {| roles := rs; errors := None |}
      = Some {| roles := rs; errors := Some e |}
    /\ forall name entry,
         errors_gql e !! name = Some entry ->
         exists s k p operation,
           entry = Summary s
           /\ p ∈ rs
           /\ operations (snd p) !! name = Some operation
           /\ gql_mostCommonStatusCode s = JStr (ToString k)
           /\ k ∈ error_codes operation
           /\ (forall c, occurrences (error_codes operation) c
                         <= occurrences (error_codes operation) k)
           /\ (exists l1 l2,
                  Object_keys (tally (error_codes operation)) = l1 ++ k :: l2
                  /\ Forall (fun c => occurrences (error_codes operation) c
                                      < occurrences (error_codes operation) k) l2)
           /\ (Forall (fun c => is_array_index c = true) (error_codes operation) ->
               forall c, c ∈ error_codes operation ->
                         occurrences (error_codes operation) c
                         = occurrences (error_codes operation) k ->
                         (c <= k)%Z).
Proof.
  destruct (extendJsonWithErrors_spec rs) as (e & He & Hg & _).
  exists e. split; [done|]. intros name entry Hentry.
  rewrite Hg in Hentry. unfold gql_entry in Hentry.
  apply gql_fold_source in Hentry as [?|(p & operation & s & Hp & Hop & _ & Hs & ->)];
    [done|].
  rewrite gql_summary_spec in Hs.
  destruct (reduce _ (error_codes operation)) as [c|] eqn:Hred; [|done].
  injection Hs as <-. simpl.
  assert (Hne : error_codes operation <> []).
  { intros Hnil. by rewrite Hnil in Hred. }
  destruct (most_common_spec _ Hne) as (k & l1 & l2 & -> & Heq & Hk & Hmax & Hlater & Htie).
  eexists _, k, p, operation. split; [done|]. simpl. rewrite ToString_truthy.
  repeat (split; [done|]). split; [eauto | done].
Qed.

(** C8: on the remote-call path, what an operation's entry holds under
    allStatusCodes is one status code, never a list: the result of the
    most-frequent reduction over the status codes of the erroring requests
    the entry was computed from, a code of highest frequency among them. *)
Theorem C8_gql_allStatusCodes_is_one_code (rs : list (string * RoleEntry num)) :
  exists e,
    extendJsonWithErrors {| roles := rs; errors := None |}
      = Some {| roles := rs; errors := Some e |}
    /\ forall name entry,
         errors_gql e !! name = Some entry ->
         exists s c p operation,
           entry = Summary s
           /\ gql_allStatusCodes s = JNum c
           /\ p ∈ rs
           /\ operations (snd p) !! name = Some operation
           /\ reduce (pick (tally (error_codes operation))) (error_codes operation) = Some c
           /\ c ∈ error_codes operation
           /\ forall c', occurrences (error_codes operation) c'
                         <= occurrences (error_codes operation) c.
Proof.
  destruct (extendJsonWithErrors_spec rs) as (e & He & Hg & _).
  exists e. split; [done|]. intros name entry Hentry.
  rewrite Hg in Hentry. unfold gql_entry in Hentry.
  apply gql_fold_source in Hentry as [?|(p & operation & s & Hp & Hop & _ & Hs & ->)];
    [done|].
  rewrite gql_summary_spec in Hs.
  destruct (reduce _ (error_codes operation)) as [c|] eqn:Hred; [|done].
  injection Hs as <-. simpl.
  destruct (reduce_pick_max _ _ _ Hred) as [Hc Hmax].
  eexists _, c, p, operation. split; [done|]. simpl. repeat (split; [done|]).
  intros c'. destruct (decide (c' ∈ error_codes operation)) as [Hc'|Hc'].
  - rewrite <- !tally_count. by apply Hmax.
  - rewrite (occurrences_zero _ _ Hc'). lia.
Qed.

(** C9: on the resource path, the entry of every URL with two or more
    failing requests ends with an empty allStatusCodes, because the update
    reads it from the key "rest-" followed by the URL, which the errors
    object never has. *)
Theorem C9_rest_allStatusCodes_empty_from_second_failure
  (rs : list (string * RoleEntry num)) (u : string) :
  2 <= length (rest_failures u (all_rest rs)) ->
  (forall (e : Errors) (v : string), errors_property e ("rest-" +:+ v) = None)
  /\ exists e s,
       extendJsonWithErrors {| roles := rs; errors := None |}
         = Some {| roles := rs; errors := Some e |}
       /\ errors_rest e !! u = Some s
       /\ allStatusCodes s = [].
Proof.
  intros Htwo. split; [apply rest_key_unpopulated|].
  destruct (extendJsonWithErrors_spec rs) as (e & He & _ & Hr).
  specialize (Hr u).
  destruct (rest_failures u (all_rest rs)) as [|c [|c2 more]]; simpl in Htwo; try lia.
  eexists e, _. split; [done|]. split; [exact Hr | done].
Qed.

(** C10, as the code has it: when an operation name occurs under several
    roles, the entry errors.gql of that name is the summary of the requests
    of one role alone, the last one processed in which a request of that
    operation is erroring with a non-empty response body (each such role
    overwrites the entry of the roles before it); the count of an errors.rest
    entry is the number of failing requests for its URL added up over all
    roles. *)
Theorem C10_gql_last_erroring_role_overwrites_rest_counts_add_up
  (rs : list (string * RoleEntry num)) :
  exists e,
    extendJsonWithErrors {| roles := rs; errors := None |}
      = Some {| roles := rs; errors := Some e |}
    /\ (forall before p after name operation,
          rs = before ++ p :: after ->
          operations (snd p) !! name = Some operation ->
          existsb triggers operation = true ->
          (forall q operation',
              q ∈ after -> operations (snd q) !! name = Some operation' ->
              existsb triggers operation' = false) ->
          exists s, gql_summary operation = Some s
                    /\ errors_gql e !! name = Some (Summary s))
    /\ (forall u,
          count <$> errors_rest e !! u =
          match sum_list (map (fun p => length (rest_failures u (restRequests (snd p)))) rs) with
          | 0 => None
          | S n => Some (S n)
          end).
Proof.
  destruct (extendJsonWithErrors_spec rs) as (e & He & Hg & Hr).
  exists e. split; [done|]. split.
  - intros before p after name operation -> Hop Ht Hidle.
    destruct (triggers_summary operation Ht) as [s Hs]. exists s. split; [done|].
    rewrite Hg. unfold gql_entry. rewrite fold_left_app. simpl.
    rewrite gql_fold_idle by done.
    unfold gql_step. by rewrite Hop, Ht, Hs.
  - intros u. by rewrite Hr, rest_entry_count, rest_failures_total.
Qed.

End Properties.

(** * The code on concrete inputs *)

Example includes_graphql :
  includes "https://app.test/graphql?op=GetUser" "graphql" = true
  /\ includes "https://cdn.test/logo.png" "graphql" = false.
Proof. done. Qed.

Example split_head_role :
  split_head "_" "User_metrics_report_17.json" = "User"
  /\ split_head "_" "super_admin_metrics_report_17.json" = "super".
Proof. done. Qed.

(** The escape of a control character can spell "error" in the text the
    classifier searches, where the body itself does not contain it. *)
Example stringify_escape_spells_error :
  includes (String (ascii_of_N 14) "rror") "error" = false
  /\ includes (JSON_stringify (String (ascii_of_N 14) "rror")) "error" = true.
Proof. done. Qed.

(** Array-index keys come first and ascend, whatever the creation order. *)
Example Object_keys_order :
  Object_keys (tally [500; 404; -1; 7; 404]%Z) = [7; 404; 500; -1]%Z.
Proof. done. Qed.

Example unmonitored_exchange_ignored :
  fst (on_requestfinished Sample.cfg initial Sample.unmonitored) = initial.
Proof. done. Qed.

Example slow_exchange_recorded :
  length (requests (collectedData (observe Sample.cfg [Sample.fast_ok; Sample.slow_ok]))) = 1
  /\ totalRequests (overallInformation (collectedData
        (observe Sample.cfg [Sample.fast_ok; Sample.slow_ok]))) = 2.
Proof. done. Qed.

(** C1, on a failing monitored exchange: it is recorded. *)
Lemma C1_witness_failing_exchange_recorded :
  response Sample.failing = Resolved (Sample.reply 500 (Some "oops"))
  /\ requests (collectedData (fst (on_requestfinished Sample.cfg initial Sample.failing)))
     = [dataObject Sample.failing (Sample.reply 500 (Some "oops")) (Some "oops")].
Proof.
  split; [reflexivity|].
  destruct (C1_record_iff_monitored_and_slow_or_failing
              Sample.cfg initial Sample.failing (Sample.reply 500 (Some "oops")) eq_refl)
    as (_ & Hyes & _).
  apply Hyes. split.
  - exists "graphql". split; [by left|]. by exists "https://app.test/", "".
  - left. discriminate.
Defined.

(** C2, on ten monitored exchanges of which two are slow or failing: the
    trace is written, its average is taken over the ten and it lists two
    records. *)
Lemma C2_witness_ten_matched_two_recorded :
  exists o reqs,
    fst (monitorNetworkTraffic Sample.cfg "User" 17 Sample.ten_matched)
      = Some ("User_metrics_report_17.json", TraceJson o (Some reqs))
    /\ length reqs = 2
    /\ totalRequests o = 10
    /\ avgResponseTime o = ndiv (total_time Sample.ten_matched) (of_count 10).
Proof.
  destruct (C2_trace_written_iff_captured_average_over_monitored
              Sample.cfg "User" 17 Sample.ten_matched) as (_ & _ & Hfile).
  assert (Hwritten :
    fst (monitorNetworkTraffic Sample.cfg "User" 17 Sample.ten_matched)
    = Some ("User_metrics_report_17.json",
            TraceJson
              {| avgResponseTime := ndiv 3900%Q (of_count 10);
                 totalRequests := 10; totalTime := 3900%Q; contextTime := 0%Q |}
              (Some (flat_map (recorded Sample.cfg) Sample.ten_matched))))
    by (vm_compute; reflexivity).
  destruct (Hfile _ _ Hwritten) as (_ & o & Ho & Hn & _ & Havg).
  exists o, (flat_map (recorded Sample.cfg) Sample.ten_matched).
  split; [by rewrite Hwritten, Ho|]. split; [reflexivity|]. split; [exact Hn | exact Havg].
Defined.

(** C3 fails as stated: with a first trace of role "user" of 5 requests and
    a second of 8, the merged overallInformation has totalRequests 5. *)
Lemma C3_counterexample_second_file_does_not_replace :
  exists report entry,
    written_report (mergeNetworkTraces "S" Sample.two_files) = Some report
    /\ roles_get (roles report) "user" = Some entry
    /\ totalRequests (roleOverallInformation entry) = 5
    /\ totalRequests (roleOverallInformation entry) <> 8.
Proof.
  do 2 eexists. split; [vm_compute; reflexivity|].
  split; [reflexivity|]. split; [reflexivity | discriminate].
Qed.

(** C3 as amended, on the same two files: the first one's
    overallInformation is the one kept. *)
Lemma C3_witness_first_of_two_files :
  split_head "_" "user_metrics_report_2.json" = split_head "_" "user_metrics_report_1.json"
  /\ exists report entry,
       written_report (mergeNetworkTraces "S" Sample.two_files) = Some report
       /\ roles_get (roles report) "user" = Some entry
       /\ roleOverallInformation entry = Sample.overall 5.
Proof.
  split; [reflexivity|].
  exact (C3_first_file_keeps_overallInformation
           "S" "user_metrics_report_1.json" "user_metrics_report_2.json"
           (Sample.overall 5) (Sample.overall 8) (Some []) (Some []) [] [] eq_refl).
Defined.

(** C4 on the code: for the three failures 404, 404, 500 of "/a" the entry
    has count 3, but its mostCommonStatusCode is null, not 404. *)
Theorem C4_rest_three_failures_count_3_most_common_null :
  rest_failures "/a" (all_rest (roles Sample.rest_report)) = [404; 404; 500]%Z
  /\ exists e,
       extendJsonWithErrors Sample.rest_report
         = Some {| roles := roles Sample.rest_report; errors := Some e |}
       /\ errors_rest e !! "/a"
          = Some {| count := 3; mostCommonStatusCode := JNull; allStatusCodes := [] |}.
Proof.
  split; [reflexivity|].
  destruct (extendJsonWithErrors_spec (roles Sample.rest_report)) as (e & He & _ & Hr).
  exists e. split; [exact He|]. by rewrite Hr.
Qed.

(** C5 fails as stated: a failing monitored exchange whose body cannot be
    read is appended to the trace. *)
Lemma C5_counterexample_unreadable_body_still_recorded :
  response Sample.torn_down = Resolved (Sample.reply 500 None)
  /\ body (Sample.reply 500 None) = None
  /\ slow_or_failing Sample.cfg Sample.torn_down (Sample.reply 500 None) = true
  /\ requests (collectedData (fst (on_requestfinished Sample.cfg initial Sample.torn_down)))
     <> requests (collectedData (initial (num := Q))).
Proof. repeat split; discriminate. Qed.

(** C5 as amended, on that exchange: one warning, the listener completes,
    and the record without a body is in the trace. *)
Lemma C5_witness_torn_down_exchange :
  response Sample.torn_down = Resolved (Sample.reply 500 None)
  /\ body (Sample.reply 500 None) = None
  /\ snd (on_requestfinished Sample.cfg initial Sample.torn_down) = Completed
  /\ log (fst (on_requestfinished Sample.cfg initial Sample.torn_down))
     = [WarnNoResponseBuffer "https://app.test/graphql"]
  /\ requests (collectedData (fst (on_requestfinished Sample.cfg initial Sample.torn_down)))
     = [dataObject Sample.torn_down (Sample.reply 500 None) None].
Proof.
  split; [reflexivity|]. split; [reflexivity|].
  assert (Hm : monitored_url Sample.cfg (url Sample.torn_down)).
  { exists "graphql". split; [by left|]. by exists "https://app.test/", "". }
  assert (Hs : status (Sample.reply 500 None) <> 200%Z
               \/ ngtb (response_time Sample.torn_down) (threshold_ms Sample.cfg) = true).
  { left. discriminate. }
  destruct (C5_unreadable_body_recorded_without_body
              Sample.cfg initial Sample.torn_down (Sample.reply 500 None)
              eq_refl eq_refl Hm Hs) as (Hc & Hl & _ & Hq & _).
  split; [exact Hc|]. split; [exact Hl | exact Hq].
Defined.

(** C6 on the code: without the store directory the merge logs its warning
    and then ends in a TypeError; it writes no report. *)
Theorem C6_missing_store_throws_after_warning
  {num : Type} `{!JsNumber num} (stamp : string) (old : list (string * MergedMetrics num)) :
  let fs := {| store := None; reports := old |} in
  mergeNetworkTraces stamp fs = (ThrewTypeError, fs, [InfoMerging; WarnFolderNotFound])
  /\ is_warning (WarnFolderNotFound (num := num)) = true
  /\ written_report (mergeNetworkTraces stamp fs) = None.
Proof. done. Qed.

(** C7 fails as stated: for an operation whose erroring requests have the
    codes 404 and then 500, once each, mostCommonStatusCode is "500", not
    the code that appeared first. *)
Lemma C7_counterexample_tie_goes_to_later_key :
  error_codes Sample.tie_operation = [404; 500]%Z
  /\ exists e s,
       extendJsonWithErrors Sample.tie_report
         = Some {| roles := roles Sample.tie_report; errors := Some e |}
       /\ errors_gql e !! "GetUser" = Some (Summary s)
       /\ gql_mostCommonStatusCode s = JStr "500"
       /\ gql_mostCommonStatusCode s <> JStr (ToString 404)
       /\ gql_mostCommonStatusCode s <> JNum 404.
Proof.
  split; [reflexivity|]. do 2 eexists.
  split; [vm_compute; reflexivity|]. split; [reflexivity|].
  split; [reflexivity|]. split; discriminate.
Qed.

(** C7 as amended, on that operation. *)
Lemma C7_witness_tie_report :
  exists e s k,
    extendJsonWithErrors Sample.tie_report
      = Some {| roles := roles Sample.tie_report; errors := Some e |}
    /\ errors_gql e !! "GetUser" = Some (Summary s)
    /\ gql_mostCommonStatusCode s = JStr (ToString k)
    /\ k ∈ [404; 500]%Z.
Proof.
  destruct (C7_gql_mostCommonStatusCode_last_key_wins (roles Sample.tie_report))
    as (e & He & Hall).
  assert (Hentry : exists s, errors_gql e !! "GetUser" = Some (Summary s)).
  { vm_compute in He. injection He as <-. eexists. reflexivity. }
  destruct Hentry as [s0 Hs0].
  destruct (Hall _ _ Hs0) as (s & k & p & operation & [= <-] & Hp & Hop & Hk & Hin & _).
  exists e, s0, k. split; [exact He|]. split; [exact Hs0|]. split; [exact Hk|].
  apply list_elem_of_singleton in Hp as ->. simpl in Hop.
  rewrite lookup_singleton_eq in Hop. by injection Hop as <-.
Defined.

(** C8, on the operation with the codes 404 and 500: allStatusCodes holds
    one number. *)
Lemma C8_witness_tie_report :
  exists e s,
    extendJsonWithErrors Sample.tie_report
      = Some {| roles := roles Sample.tie_report; errors := Some e |}
    /\ errors_gql e !! "GetUser" = Some (Summary s)
    /\ exists c, gql_allStatusCodes s = JNum c.
Proof.
  destruct (C8_gql_allStatusCodes_is_one_code (roles Sample.tie_report))
    as (e & He & Hall).
  assert (Hentry : exists s, errors_gql e !! "GetUser" = Some (Summary s)).
  { vm_compute in He. injection He as <-. eexists. reflexivity. }
  destruct Hentry as [s0 Hs0].
  destruct (Hall _ _ Hs0) as (s & c & p & operation & [= <-] & Hc & _).
  exists e, s0. split; [exact He|]. split; [exact Hs0 | by exists c].
Defined.

(** C9, on the three failures of "/a". *)
Lemma C9_witness_three_failures :
  2 <= length (rest_failures "/a" (all_rest (roles Sample.rest_report)))
  /\ exists e s,
       extendJsonWithErrors Sample.rest_report
         = Some {| roles := roles Sample.rest_report; errors := Some e |}
       /\ errors_rest e !! "/a" = Some s
       /\ allStatusCodes s = [].
Proof.
  assert (Htwo : 2 <= length (rest_failures "/a" (all_rest (roles Sample.rest_report))))
    by (simpl; lia).
  split; [exact Htwo|].
  exact (proj2 (C9_rest_allStatusCodes_empty_from_second_failure
                  (roles Sample.rest_report) "/a" Htwo)).
Defined.

(** C10 fails as stated: "GetUser" occurs under "admin" and then under
    "user", where none of its requests is erroring; the entry is the summary
    of the requests under "admin", not of those of the last role that has
    the operation. *)
Lemma C10_counterexample_entry_from_earlier_role :
  roles Sample.two_roles = [("admin", Sample.admin_role); ("user", Sample.user_role)]
  /\ operations Sample.user_role !! "GetUser" = Some Sample.user_operation
  /\ gql_summary Sample.user_operation = None
  /\ exists e s,
       extendJsonWithErrors Sample.two_roles
         = Some {| roles := roles Sample.two_roles; errors := Some e |}
       /\ errors_gql e !! "GetUser" = Some (Summary s)
       /\ gql_summary Sample.admin_operation = Some s.
Proof.
  split; [reflexivity|]. split; [reflexivity|]. split; [reflexivity|].
  do 2 eexists. split; [vm_compute; reflexivity|]. split; reflexivity.
Qed.

(** C10 as amended, on the same report: the entry of "GetUser" is the
    summary of the requests under "admin", and the count of "/a" adds the
    failure under "admin" to the one under "user". *)
Lemma C10_witness_two_roles :
  exists e s,
    extendJsonWithErrors Sample.two_roles
      = Some {| roles := roles Sample.two_roles; errors := Some e |}
    /\ gql_summary Sample.admin_operation = Some s
    /\ errors_gql e !! "GetUser" = Some (Summary s)
    /\ count <$> errors_rest e !! "/a" = Some 2.
Proof.
  destruct (C10_gql_last_erroring_role_overwrites_rest_counts_add_up
              (roles Sample.two_roles)) as (e & He & Hgql & Hrest).
  destruct (Hgql [] ("admin", Sample.admin_role) [("user", Sample.user_role)]
              "GetUser" Sample.admin_operation eq_refl eq_refl eq_refl)
    as (s & Hs & Hentry).
  { intros q operation' ->%list_elem_of_singleton. simpl.
    rewrite lookup_singleton_eq. by intros [= <-]. }
  exists e, s. split; [exact He|]. split; [exact Hs|]. split; [exact Hentry|].
  exact (Hrest "/a").
Defined.

(** * Further properties of the pipeline *)

Section MergeProperties.

Context {num : Type}.

Lemma roles_get_alter (f : RoleEntry num -> RoleEntry num) (role k : string) (rs : list (string * RoleEntry num)) :
  roles_get (roles_alter f role rs) k =
  if bool_decide (k = role) then f <$> roles_get rs k else roles_get rs k.
Proof.
  induction rs as [|[k' e] rs IH]; simpl; [by case_bool_decide|].
  destruct (decide (k' = role)) as [->|Hne].
  - rewrite (bool_decide_eq_true_2 (role = role)) by done. simpl.
    repeat case_bool_decide; simplify_eq; done.
  - rewrite (bool_decide_eq_false_2 (k' = role)) by done. simpl. rewrite IH.
    repeat case_bool_decide; simplify_eq; done.
Qed.

Lemma roles_get_snoc (rs : list (string * RoleEntry num)) (role k : string) (e : RoleEntry num) :
  roles_get (rs ++ [(role, e)]) k =
  match roles_get rs k with
  | Some x => Some x
  | None => if bool_decide (role = k) then Some e else None
  end.
Proof.
  induction rs as [|[k' e'] rs IH]; simpl.
  - by destruct (bool_decide (role = k)).
  - by destruct (bool_decide (k' = k)).
Qed.

Lemma merge_request_get (role k : string) (acc : list (string * RoleEntry num) * list (LogEntry num)) (request : RequestData num) :
  roles_get (fst (merge_request role acc request)) k =
  if bool_decide (k = role)
  then (fun e => merge_entry e request) <$> roles_get (fst acc) k
  else roles_get (fst acc) k.
Proof.
  destruct acc as [rs lg]. unfold merge_request, merge_entry. simpl.
  destruct (responseBody request) as [b|]; simpl.
  - destruct (includes (requestUrl request) "graphql").
    + destruct (requestBody request) as [rb|]; simpl.
      * apply roles_get_alter.
      * case_bool_decide; [|done]. by destruct (roles_get rs k).
    + apply roles_get_alter.
  - case_bool_decide; [|done]. by destruct (roles_get rs k).
Qed.

Lemma merge_requests_get (role k : string) (l : list (RequestData num)) (acc : list (string * RoleEntry num) * list (LogEntry num)) :
  roles_get (fst (fold_left (merge_request role) l acc)) k =
  if bool_decide (k = role)
  then (fun e => fold_left merge_entry l e) <$> roles_get (fst acc) k
  else roles_get (fst acc) k.
Proof.
  revert acc. induction l as [|request l IH]; intros acc; simpl.
  - case_bool_decide; [|done]. by destruct (roles_get (fst acc) k).
  - rewrite IH, merge_request_get. case_bool_decide; [|done].
    by destruct (roles_get (fst acc) k).
Qed.

Lemma merge_file_get (acc : list (string * RoleEntry num) * list (LogEntry num)) (file : string * FileContent num) (k : string) :
  roles_get (fst (merge_file acc file)) k = entry_after_file (roles_get (fst acc) k) file k.
Proof.
  destruct acc as [rs lg], file as [name [text|o reqs]];
    unfold merge_file, entry_after_file, role_of; simpl; [done|].
  set (role := split_head "_" name).
  assert (Hseed :
    roles_get
      (match roles_get rs role with
       | Some _ => rs
       | None => rs ++ [(role, seed_role o)]
       end) k =
    if bool_decide (role = k) then Some (default (seed_role o) (roles_get rs k))
    else roles_get rs k).
  { destruct (roles_get rs role) as [e|] eqn:Hget.
    - case_bool_decide as Hk; [|done]. subst k. by rewrite Hget.
    - rewrite roles_get_snoc. case_bool_decide as Hk.
      + subst k. by rewrite Hget.
      + by destruct (roles_get rs k). }
  destruct reqs as [l|]; simpl.
  - rewrite merge_requests_get. simpl. rewrite Hseed.
    repeat case_bool_decide; simplify_eq; done.
  - rewrite Hseed. by case_bool_decide.
Qed.

Lemma merge_files_get (files : list (string * FileContent num)) (acc : list (string * RoleEntry num) * list (LogEntry num)) (k : string) :
  roles_get (fst (fold_left merge_file files acc)) k =
  fold_left (fun prev file => entry_after_file prev file k) files (roles_get (fst acc) k).
Proof.
  revert acc. induction files as [|file files IH]; intros acc; simpl; [done|].
  by rewrite IH, merge_file_get.
Qed.

Lemma bucket_add_app (prev : option (list (MergedRequest num))) (a b : list (MergedRequest num)) :
  bucket_add (bucket_add prev a) b = bucket_add prev (a ++ b).
Proof.
  destruct a as [|x a], b as [|y b]; simpl; try done.
  - by rewrite app_nil_r.
  - by rewrite <- app_assoc.
Qed.

Lemma merge_entry_spec (e : RoleEntry num) (request : RequestData num) :
  roleOverallInformation (merge_entry e request) = roleOverallInformation e
  /\ restRequests (merge_entry e request) = restRequests e ++ rest_copy request
  /\ forall name,
       operations (merge_entry e request) !! name =
       bucket_add (operations e !! name) (gql_copy name request).
Proof.
  unfold merge_entry, rest_copy, gql_copy.
  destruct (responseBody request) as [b|]; [|by rewrite app_nil_r].
  destruct (includes (requestUrl request) "graphql"); simpl.
  - destruct (requestBody request) as [rb|]; [|by rewrite app_nil_r].
    split; [done|]. split; [by rewrite app_nil_r|]. intros name.
    case_bool_decide as Hname; simpl.
    + subst name. by rewrite lookup_insert_eq.
    + by rewrite lookup_insert_ne.
  - split; [done|]. split; [done|]. intros name. by destruct (requestBody request).
Qed.

Lemma merge_entries_spec (l : list (RequestData num)) (e : RoleEntry num) :
  roleOverallInformation (fold_left merge_entry l e) = roleOverallInformation e
  /\ restRequests (fold_left merge_entry l e) = restRequests e ++ flat_map rest_copy l
  /\ forall name,
       operations (fold_left merge_entry l e) !! name =
       bucket_add (operations e !! name) (flat_map (gql_copy name) l).
Proof.
  revert e. induction l as [|request l IH]; intros e; simpl.
  - by rewrite app_nil_r.
  - destruct (IH (merge_entry e request)) as (Ho & Hr & Hg).
    destruct (merge_entry_spec e request) as (Ho1 & Hr1 & Hg1).
    split; [congruence|]. split.
    + by rewrite Hr, Hr1, <- app_assoc.
    + intros name. by rewrite Hg, Hg1, bucket_add_app.
Qed.

Lemma trace_requests_cons (k : string) (file : string * FileContent num) (files : list (string * FileContent num)) :
  trace_requests k (file :: files) =
  match snd file with
  | TraceJson _ reqs => if bool_decide (role_of file = k) then default [] reqs else []
  | NotJson _ => []
  end ++ trace_requests k files.
Proof.
  unfold trace_requests. simpl. f_equal.
  destruct (snd file) as [text|o [l|]]; try done. by case_bool_decide.
Qed.

Lemma trace_requests_app (k : string) (l1 l2 : list (string * FileContent num)) :
  trace_requests k (l1 ++ l2) = trace_requests k l1 ++ trace_requests k l2.
Proof. unfold trace_requests. apply flat_map_app. Qed.

Lemma entry_after_file_spec (prev : option (RoleEntry num)) (file : string * FileContent num) (k : string) :
  let after := entry_after_file prev file k in
  (is_Some after <-> is_Some prev \/ has_trace k [file] = true)
  /\ default [] (restRequests <$> after) =
       default [] (restRequests <$> prev) ++ flat_map rest_copy (trace_requests k [file])
  /\ forall name,
       after ≫= (fun e => operations e !! name) =
       bucket_add (prev ≫= (fun e => operations e !! name))
         (flat_map (gql_copy name) (trace_requests k [file])).
Proof.
  unfold entry_after_file, has_trace, trace_requests, parses. simpl.
  destruct (snd file) as [text|o reqs]; simpl.
  - rewrite app_nil_r. split; [split; [auto | by intros [?|?]] | done].
  - case_bool_decide as Hrole; simpl.
    + destruct (merge_entries_spec (default [] reqs) (default (seed_role o) prev))
        as (_ & Hr & Hg).
      split; [split; [auto | eauto] |]. split.
      * rewrite Hr. by destruct prev as [e|], reqs as [l|]; simpl; rewrite ?app_nil_r.
      * intros name. rewrite Hg.
        by destruct prev as [e|], reqs as [l|]; simpl; rewrite ?app_nil_r.
    + destruct reqs as [l|]; simpl; rewrite app_nil_r;
        (split; [split; [auto | by intros [?|?]] | done]).
Qed.

(** The entry of a role after the files: it exists when a trace of the role
    does, its resource bucket holds the copies [rest_copy] and its operation
    buckets the copies [gql_copy] of the requests of those traces. *)
Lemma files_entry_spec (files : list (string * FileContent num)) (prev : option (RoleEntry num)) (k : string) :
  let after := fold_left (fun prev file => entry_after_file prev file k) files prev in
  (is_Some after <-> is_Some prev \/ has_trace k files = true)
  /\ default [] (restRequests <$> after) =
       default [] (restRequests <$> prev) ++ flat_map rest_copy (trace_requests k files)
  /\ forall name,
       after ≫= (fun e => operations e !! name) =
       bucket_add (prev ≫= (fun e => operations e !! name))
         (flat_map (gql_copy name) (trace_requests k files)).
Proof.
  revert prev. induction files as [|file files IH]; intros prev; cbv zeta.
  - simpl. rewrite app_nil_r. split; [split; [auto | by intros [?|?]] | done].
  - destruct (IH (entry_after_file prev file k)) as (Hsome & Hrest & Hops).
    destruct (entry_after_file_spec prev file k) as (Hsome1 & Hrest1 & Hops1).
    change (file :: files) with ([file] ++ files).
    rewrite trace_requests_app, !flat_map_app, fold_left_app.
    change (fold_left (fun prev file => entry_after_file prev file k) [file] prev)
      with (entry_after_file prev file k).
    split; [|split].
    + rewrite Hsome, Hsome1. unfold has_trace. rewrite existsb_app, orb_true_iff. tauto.
    + by rewrite Hrest, Hrest1, app_assoc.
    + intros name. by rewrite Hops, Hops1, bucket_add_app, flat_map_app.
Qed.

(** With the store directory at hand the merge returns: it removes the store
    and appends one report, whose roles are those the files were folded into. *)
Lemma mergeNetworkTraces_returns (stamp : string) (files : list (string * FileContent num)) (old : list (string * MergedMetrics num)) :
  exists e,
    mergeNetworkTraces stamp {| store := Some files; reports := old |} =
    (Returned,
     {| store := None;
        reports := old ++ [(report_file_name stamp,
                            {| roles := fst (fold_left merge_file files ([], [InfoMerging]));
                               errors := Some e |})] |},
     snd (fold_left merge_file files ([], [InfoMerging])) ++ [InfoGatheringErrors]).
Proof.
  unfold mergeNetworkTraces. cbn [store].
  destruct (fold_left merge_file files _) as [rs lg] eqn:Hfold.
  destruct (extendJsonWithErrors_returns rs None) as (e & -> & _).
  by exists e.
Qed.

Lemma written_report_spec (stamp : string) (files : list (string * FileContent num)) (old : list (string * MergedMetrics num)) :
  written_report (mergeNetworkTraces stamp {| store := Some files; reports := old |}) =
  extendJsonWithErrors
    {| roles := fst (fold_left merge_file files ([], [InfoMerging])); errors := None |}.
Proof.
  unfold mergeNetworkTraces. cbn [store].
  destruct (fold_left merge_file files _) as [rs lg]. cbn [fst].
  destruct (extendJsonWithErrors _) as [merged|]; simpl; [|done].
  by rewrite last_snoc.
Qed.

Lemma written_report_roles (stamp : string) (files : list (string * FileContent num)) (old : list (string * MergedMetrics num)) :
  exists report,
    written_report (mergeNetworkTraces stamp {| store := Some files; reports := old |})
      = Some report
    /\ roles report = fst (fold_left merge_file files ([], [InfoMerging])).
Proof.
  rewrite written_report_spec.
  destruct (extendJsonWithErrors_returns
              (fst (fold_left merge_file files ([], [InfoMerging]))) None)
    as (e & -> & _). eauto.
Qed.

(** X1: in the merged report, a role exists exactly when the store holds a
    parseable trace of it, and its resource bucket lists, in the order of the
    files and of their requests, one copy of every request of those traces
    whose responseBody is present and whose URL does not contain "graphql",
    and nothing else. *)
Theorem merge_rest_bucket_holds_copies
  (stamp : string) (files : list (string * FileContent num))
  (old : list (string * MergedMetrics num)) (role : string) :
  exists report,
    written_report (mergeNetworkTraces stamp {| store := Some files; reports := old |})
      = Some report
    /\ restRequests <$> roles_get (roles report) role =
       if has_trace role files
       then Some (flat_map rest_copy (trace_requests role files))
       else None.
Proof.
  destruct (written_report_roles stamp files old) as (report & Hreport & Hroles).
  exists report. split; [done|]. rewrite Hroles, merge_files_get. simpl.
  destruct (files_entry_spec files None role) as (Hsome & Hrest & _).
  simpl in Hrest.
  destruct (fold_left _ files None) as [e|]; destruct (has_trace role files); simpl in *.
  - by rewrite Hrest.
  - destruct Hsome as [[[??]|?] _]; eauto; done.
  - destruct Hsome as [_ [??]]; eauto; done.
  - done.
Qed.

(** X2: in the merged report, the bucket of an operation name under a role
    exists exactly when some request of the role's traces has a responseBody,
    a URL containing "graphql" and a requestBody whose operationName gives
    that name; it then lists one copy of each such request, in order. *)
Theorem merge_operation_bucket_holds_copies
  (stamp : string) (files : list (string * FileContent num))
  (old : list (string * MergedMetrics num)) (role name : string) :
  exists report,
    written_report (mergeNetworkTraces stamp {| store := Some files; reports := old |})
      = Some report
    /\ roles_get (roles report) role ≫= (fun e => operations e !! name) =
       match flat_map (gql_copy name) (trace_requests role files) with
       | [] => None
       | m :: l => Some (m :: l)
       end.
Proof.
  destruct (written_report_roles stamp files old) as (report & Hreport & Hroles).
  exists report. split; [done|]. rewrite Hroles, merge_files_get. simpl.
  destruct (files_entry_spec files None role) as (_ & _ & Hops).
  rewrite Hops. simpl. by destruct (flat_map _ _).
Qed.

Lemma rest_copy_elem (files : list (string * FileContent num)) (role : string) (m : MergedRequest num) :
  In m (flat_map rest_copy (trace_requests role files)) ->
  copied_from files role m /\ includes (mRequestUrl m) "graphql" = false.
Proof.
  intros (request & Hin & Hm)%in_flat_map. unfold rest_copy in Hm.
  destruct (responseBody request) as [b|] eqn:Hb; [|done].
  destruct (includes (requestUrl request) "graphql") eqn:Hurl; [done|].
  destruct Hm as [<-|[]]. split; [|done]. split; [done|].
  exists request. by rewrite Hb.
Qed.

Lemma gql_copy_elem (files : list (string * FileContent num)) (role name : string) (m : MergedRequest num) :
  In m (flat_map (gql_copy name) (trace_requests role files)) ->
  copied_from files role m
  /\ includes (mRequestUrl m) "graphql" = true
  /\ exists rb, mRequestBody m = Some rb /\ operation_key (operationName rb) = name.
Proof.
  intros (request & Hin & Hm)%in_flat_map. unfold gql_copy in Hm.
  destruct (responseBody request) as [b|] eqn:Hb; [|done].
  destruct (requestBody request) as [rb|] eqn:Hrb; [|done].
  destruct (includes (requestUrl request) "graphql") eqn:Hurl; [|done].
  case_bool_decide as Hname; [|done].
  destruct Hm as [<-|[]]. split; [|split; [done | by exists rb]].
  split; [done|]. exists request. by rewrite Hb.
Qed.

(** X3: every request found in a bucket of the merged report is the copy of
    a request of a trace of that role whose responseBody is present, and its
    responseStatusCode is its statusCode; a request in the resource bucket
    has a URL without "graphql", a request in an operation bucket has a URL
    with "graphql" and a requestBody of that operation name; no operation
    bucket is empty.  So a request without responseBody, and a "graphql"
    request without requestBody, are in no bucket. *)
Theorem merged_requests_are_normalized_copies
  (stamp : string) (files : list (string * FileContent num))
  (old : list (string * MergedMetrics num)) :
  exists report,
    written_report (mergeNetworkTraces stamp {| store := Some files; reports := old |})
      = Some report
    /\ forall role entry,
         roles_get (roles report) role = Some entry ->
         (forall m, In m (restRequests entry) ->
                    copied_from files role m
                    /\ includes (mRequestUrl m) "graphql" = false)
         /\ (forall name l,
               operations entry !! name = Some l ->
               l <> []
               /\ forall m, In m l ->
                    copied_from files role m
                    /\ includes (mRequestUrl m) "graphql" = true
                    /\ exists rb, mRequestBody m = Some rb
                                  /\ operation_key (operationName rb) = name).
Proof.
  destruct (written_report_roles stamp files old) as (report & Hreport & Hroles).
  exists report. split; [done|]. intros role entry Hentry.
  rewrite Hroles, merge_files_get in Hentry. simpl in Hentry.
  destruct (files_entry_spec files None role) as (_ & Hrest & Hops).
  rewrite Hentry in Hrest, Hops. simpl in Hrest, Hops. split.
  - intros m Hm. rewrite Hrest in Hm. by apply rest_copy_elem.
  - intros name l Hl. specialize (Hops name). rewrite Hl in Hops.
    destruct (flat_map (gql_copy name) (trace_requests role files)) as [|m0 l0] eqn:Hc;
      simpl in Hops; [done|].
    injection Hops as ->. split; [done|].
    intros m Hm. apply gql_copy_elem. by rewrite Hc.
Qed.

Lemma merge_request_roles (role : string) (rs : list (string * RoleEntry num)) (lg lg' : list (LogEntry num)) (request : RequestData num) :
  fst (merge_request role (rs, lg) request) = fst (merge_request role (rs, lg') request).
Proof.
  unfold merge_request. destruct (responseBody request); [|done].
  destruct (includes _ _); [|done]. by destruct (requestBody request).
Qed.

Lemma merge_requests_roles (role : string) (l : list (RequestData num)) (rs : list (string * RoleEntry num)) (lg lg' : list (LogEntry num)) :
  fst (fold_left (merge_request role) l (rs, lg))
  = fst (fold_left (merge_request role) l (rs, lg')).
Proof.
  revert rs lg lg'. induction l as [|request l IH]; intros rs lg lg'; [done|].
  cbn [fold_left].
  pose proof (merge_request_roles role rs lg lg' request) as Hfst.
  destruct (merge_request role (rs, lg) request) as [rs1 lg1].
  destruct (merge_request role (rs, lg') request) as [rs2 lg2].
  simpl in Hfst. subst rs2. apply IH.
Qed.

Lemma merge_file_roles (rs : list (string * RoleEntry num)) (lg lg' : list (LogEntry num)) (file : string * FileContent num) :
  fst (merge_file (rs, lg) file) = fst (merge_file (rs, lg') file).
Proof.
  unfold merge_file. destruct (snd file) as [text|o [l|]]; try done.
  apply merge_requests_roles.
Qed.

Lemma merge_requests_log (role : string) (l : list (RequestData num)) (acc : list (string * RoleEntry num) * list (LogEntry num)) :
  List.filter is_cannot_parse (snd (fold_left (merge_request role) l acc))
  = List.filter is_cannot_parse (snd acc).
Proof.
  revert acc. induction l as [|request l IH]; intros [rs lg]; simpl; [done|].
  rewrite IH. unfold merge_request.
  destruct (responseBody request); simpl.
  - destruct (includes _ _); [|done]. by destruct (requestBody request).
  - by rewrite List.filter_app, app_nil_r.
Qed.

Lemma merge_files_skip (files : list (string * FileContent num)) (rs : list (string * RoleEntry num)) (lg lg' : list (LogEntry num)) :
  fst (fold_left merge_file files (rs, lg))
  = fst (fold_left merge_file (List.filter parses files) (rs, lg'))
  /\ List.filter is_cannot_parse (snd (fold_left merge_file files (rs, lg)))
     = List.filter is_cannot_parse lg
         ++ map (fun file => WarnCannotParse (fst file))
              (List.filter (fun file => negb (parses file)) files).
Proof.
  revert rs lg lg'. induction files as [|file files IH]; intros rs lg lg'.
  - simpl. by rewrite app_nil_r.
  - cbn [fold_left List.filter]. destruct (parses file) eqn:Hp; cbn [fold_left negb map].
    + pose proof (merge_file_roles rs lg lg' file) as Hfst.
      assert (Hlog : List.filter is_cannot_parse (snd (merge_file (rs, lg) file))
                     = List.filter is_cannot_parse lg).
      { unfold merge_file, parses in *. destruct (snd file) as [text|o [l|]]; [done| |].
        - by rewrite merge_requests_log.
        - simpl. by rewrite List.filter_app, app_nil_r. }
      destruct (merge_file (rs, lg) file) as [rs1 lg1].
      destruct (merge_file (rs, lg') file) as [rs2 lg2].
      simpl in Hfst, Hlog. subst rs2.
      destruct (IH rs1 lg1 lg2) as [-> ->]. by rewrite Hlog.
    + unfold merge_file, parses in *. destruct (snd file) as [text|o reqs]; [|done].
      destruct (IH rs (lg ++ [WarnCannotParse (fst file)]) lg') as [-> ->].
      split; [done|]. rewrite List.filter_app. simpl. by rewrite <- app_assoc.
Qed.

(** X4: files that do not parse are skipped: the report is the one the merge
    writes for the store without them, and the log holds one "Cannot parse"
    warning for each of them, in order. *)
Theorem merge_skips_unparseable_files
  (stamp : string) (files : list (string * FileContent num))
  (old : list (string * MergedMetrics num)) :
  written_report (mergeNetworkTraces stamp {| store := Some files; reports := old |})
  = written_report
      (mergeNetworkTraces stamp {| store := Some (List.filter parses files); reports := old |})
  /\ List.filter is_cannot_parse
       (snd (mergeNetworkTraces stamp {| store := Some files; reports := old |}))
     = map (fun file => WarnCannotParse (fst file))
         (List.filter (fun file => negb (parses file)) files).
Proof.
  split.
  - rewrite !written_report_spec.
    by destruct (merge_files_skip files [] [InfoMerging] [InfoMerging]) as [-> _].
  - destruct (mergeNetworkTraces_returns stamp files old) as [e ->]. simpl.
    rewrite List.filter_app, app_nil_r.
    by destruct (merge_files_skip files [] [InfoMerging] [InfoMerging]) as [_ ->].
Qed.


Lemma roles_get_None (rs : list (string * RoleEntry num)) (k : string) :
  roles_get rs k = None <-> ~ In k (map fst rs).
Proof.
  induction rs as [|[k' e] rs IH]; simpl; [tauto|].
  case_bool_decide; [|rewrite IH]; intuition congruence.
Qed.

Lemma roles_alter_keys (f : RoleEntry num -> RoleEntry num) (role : string) (rs : list (string * RoleEntry num)) :
  map fst (roles_alter f role rs) = map fst rs.
Proof.
  induction rs as [|[k e] rs IH]; simpl; [done|].
  case_bool_decide; simpl; by rewrite ?IH.
Qed.

Lemma merge_requests_keys (role : string) (l : list (RequestData num)) (acc : list (string * RoleEntry num) * list (LogEntry num)) :
  map fst (fst (fold_left (merge_request role) l acc)) = map fst (fst acc).
Proof.
  revert acc. induction l as [|request l IH]; intros [rs lg]; simpl; [done|].
  rewrite IH. unfold merge_request.
  destruct (responseBody request); [|done].
  destruct (includes _ _); [destruct (requestBody request); [|done]|];
    apply roles_alter_keys.
Qed.

Lemma merge_files_NoDup (files : list (string * FileContent num)) (acc : list (string * RoleEntry num) * list (LogEntry num)) :
  List.NoDup (map fst (fst acc)) ->
  List.NoDup (map fst (fst (fold_left merge_file files acc))).
Proof.
  revert acc. induction files as [|file files IH]; intros [rs lg] Hrs; simpl; [done|].
  apply IH. unfold merge_file. simpl in *.
  destruct (snd file) as [text|o reqs]; [done|].
  assert (Hseed : List.NoDup (map fst
            (match roles_get rs (split_head "_" (fst file)) with
             | Some _ => rs
             | None => rs ++ [(split_head "_" (fst file), seed_role o)]
             end))).
  { destruct (roles_get rs _) eqn:Hget; [done|].
    rewrite map_app. simpl. apply NoDup_ListNoDup, NoDup_app.
    split; [by apply NoDup_ListNoDup|]. split; [|apply NoDup_singleton].
    intros k Hk ->%list_elem_of_singleton.
    apply roles_get_None in Hget. apply Hget. by apply list_elem_of_In. }
  destruct reqs as [l|]; [|done]. by rewrite merge_requests_keys.
Qed.

(** X6: no role occurs twice in the merged report, however many files of a
    role the store holds. *)
Theorem merged_roles_are_unique
  (stamp : string) (files : list (string * FileContent num))
  (old : list (string * MergedMetrics num)) :
  exists report,
    written_report (mergeNetworkTraces stamp {| store := Some files; reports := old |})
      = Some report
    /\ List.NoDup (map fst (roles report)).
Proof.
  destruct (written_report_roles stamp files old) as (report & Hreport & Hroles).
  exists report. split; [done|]. rewrite Hroles.
  apply merge_files_NoDup. constructor.
Qed.

End MergeProperties.

Section PipelineProperties.

Context {num : Type} `{!JsNumber num}.

Lemma split_head_app (c : ascii) (a b : string) :
  split_head c (a +:+ String c b) = split_head c a.
Proof.
  induction a as [|x a IH]; simpl.
  - by rewrite bool_decide_eq_true_2.
  - case_bool_decide; [done | by rewrite IH].
Qed.

Lemma split_head_whole (c : ascii) (s : string) :
  split_head c s = s <-> includes s (String c "") = false.
Proof.
  induction s as [|x s IH]; simpl; [done|].
  rewrite orb_false_iff, andb_true_r, <- IH.
  destruct (decide (x = c)) as [->|Hne].
  - rewrite !bool_decide_eq_true_2 by done. split; [done | by intros [? _]].
  - rewrite (bool_decide_eq_false_2 (x = c)) by done.
    rewrite (bool_decide_eq_false_2 (c = x)) by congruence.
    split; [intros [= ->]; done | intros [_ ->]; done].
Qed.

Lemma trace_file_role_cut (role : string) (now : N) :
  split_head "_" (trace_file_name role now) = split_head "_" role
  /\ (split_head "_" role = role <-> includes role "_" = false).
Proof.
  split; [|apply split_head_whole]. unfold trace_file_name.
  change ("_metrics_report_" +:+ pretty now +:+ ".json")
    with (String "_" ("metrics_report_" +:+ pretty now +:+ ".json")).
  apply split_head_app.
Qed.

(** X7: the role under which the merge files a session's trace is the
    session's role cut at its first underscore: it is the role itself exactly
    when the role contains no underscore, so that the traces of the roles
    "super_admin" and "super_user" are merged under the one role "super". *)
Theorem trace_file_role_is_cut_at_underscore (role : string) (now : N) :
  split_head "_" (trace_file_name role now) = split_head "_" role
  /\ (split_head "_" (trace_file_name role now) = role <-> includes role "_" = false).
Proof.
  destruct (trace_file_role_cut role now) as [Hcut Hwhole].
  split; [done|]. by rewrite Hcut.
Qed.

Lemma roles_alter_same (role : string) (rs : list (string * RoleEntry num)) :
  roles_alter (fun e => e) role rs = rs.
Proof.
  induction rs as [|[k e] rs IH]; simpl; [done|]. case_bool_decide; by rewrite ?IH.
Qed.

Lemma roles_alter_twice (f g : RoleEntry num -> RoleEntry num) (role : string) (rs : list (string * RoleEntry num)) :
  roles_alter f role (roles_alter g role rs) = roles_alter (fun e => f (g e)) role rs.
Proof.
  induction rs as [|[k e] rs IH]; simpl; [done|].
  case_bool_decide as Hk; simpl; rewrite ?bool_decide_eq_true_2, ?bool_decide_eq_false_2 by done;
    by rewrite ?IH.
Qed.

Lemma merge_requests_alter (role : string) (l : list (RequestData num)) (rs : list (string * RoleEntry num)) (lg : list (LogEntry num)) :
  fst (fold_left (merge_request role) l (rs, lg))
  = roles_alter (fun e => fold_left merge_entry l e) role rs.
Proof.
  revert rs lg. induction l as [|request l IH]; intros rs lg.
  - simpl. by rewrite roles_alter_same.
  - cbn [fold_left].
    assert (Hstep : exists lg1,
      merge_request role (rs, lg) request
      = (roles_alter (fun e => merge_entry e request) role rs, lg1)).
    { unfold merge_request, merge_entry.
      destruct (responseBody request) as [b|];
        [|rewrite roles_alter_same; eauto].
      destruct (includes (requestUrl request) "graphql"); [|eauto].
      destruct (requestBody request) as [rb|]; [eauto|].
      rewrite roles_alter_same; eauto. }
    destruct Hstep as [lg1 ->]. by rewrite IH, roles_alter_twice.
Qed.

(** X8: a trace that a session writes, merged as the only file of the store,
    gives a report with one role, the session's role cut at its first
    underscore; it carries the overallInformation of the trace, and its
    buckets hold the copies of the records captured in the session whose
    body was read, the records kept without a body being dropped. *)
Theorem session_trace_merged_alone
  (cfg : Config num) (role : string) (now : N) (events : list (Exchange num))
  (stamp name : string) (content : FileContent num) (old : list (string * MergedMetrics num)) :
  fst (monitorNetworkTraffic cfg role now events) = Some (name, content) ->
  exists report entry,
    written_report
      (mergeNetworkTraces stamp {| store := Some [(name, content)]; reports := old |})
      = Some report
    /\ roles report = [(split_head "_" role, entry)]
    /\ roleOverallInformation entry
       = overallInformation (collectedData (snd (monitorNetworkTraffic cfg role now events)))
    /\ restRequests entry = flat_map rest_copy (flat_map (recorded cfg) events)
    /\ forall operation,
         operations entry !! operation =
         match flat_map (gql_copy operation) (flat_map (recorded cfg) events) with
         | [] => None
         | m :: l => Some (m :: l)
         end.
Proof.
  unfold monitorNetworkTraffic, on_close.
  pose proof (observe_requests cfg events) as Hreq.
  destruct (requests (collectedData (observe cfg events))) as [|d l] eqn:Hc; [done|].
  simpl. intros [= <- <-].
  destruct (written_report_roles stamp
              [(trace_file_name role now, serialize (with_average (collectedData (observe cfg events))))]
              old) as (report & Hreport & Hroles).
  simpl in Hroles. unfold merge_file in Hroles. simpl in Hroles.
  rewrite merge_requests_alter in Hroles. simpl in Hroles.
  destruct (trace_file_role_cut role now) as [Hcut _].
  rewrite Hcut, bool_decide_eq_true_2 in Hroles by done.
  destruct (merge_entries_spec (requests (collectedData (observe cfg events)))
              (seed_role (overallInformation (with_average (collectedData (observe cfg events))))))
    as (Ho & Hr & Hg).
  rewrite Hc in *.
  eexists report, _. split; [exact Hreport|]. split; [exact Hroles|].
  split; [exact Ho|]. split.
  - etrans; [apply Hr|]. by rewrite <- Hreq.
  - intros operation. etrans; [apply Hg|]. rewrite <- Hreq.
    unfold seed_role. cbn [operations]. rewrite lookup_empty.
    generalize (flat_map (gql_copy operation) (d :: l)). by intros [|m ms].
Qed.

End PipelineProperties.

Section ClassifierProperties.

Context {num : Type}.

Lemma string_app_assoc (a b c : string) : (a +:+ b) +:+ c = a +:+ (b +:+ c).
Proof.
  induction a as [|x a IH]; [done|].
  change (String x ((a +:+ b) +:+ c) = String x (a +:+ (b +:+ c))). by rewrite IH.
Qed.

Lemma json_escape_all_app (a b : string) :
  json_escape_all (a +:+ b) = json_escape_all a +:+ json_escape_all b.
Proof.
  induction a as [|x a IH]; [done|].
  change (String x a +:+ b) with (String x (a +:+ b)).
  cbn [json_escape_all]. by rewrite IH, string_app_assoc.
Qed.

Lemma stringify_keeps_error (s : string) :
  occurs_in "error" s -> occurs_in "error" (JSON_stringify s).
Proof.
  intros (pre & post & ->). unfold JSON_stringify.
  rewrite !json_escape_all_app.
  exists (String quote_char (json_escape_all pre)),
         (json_escape_all post +:+ String quote_char "").
  change (json_escape_all "error") with "error". simpl.
  by rewrite !string_app_assoc.
Qed.

(** X9: a request of an operation counts as erroring whenever its status
    code is not 200 and whenever its response body contains "error",
    whatever the status; a request that does not count as erroring has
    status 200 and a body without "error". *)
Theorem is_error_by_status_or_body (request : MergedRequest num) :
  (mResponseStatusCode request <> 200%Z \/ occurs_in "error" (mResponseBody request) ->
   is_error request = true)
  /\ (is_error request = false ->
      mResponseStatusCode request = 200%Z /\ ~ occurs_in "error" (mResponseBody request)).
Proof.
  assert (Hyes : mResponseStatusCode request <> 200%Z
                 \/ occurs_in "error" (mResponseBody request) ->
                 is_error request = true).
  { unfold is_error. intros [Hs|Hb].
    - by rewrite (bool_decide_eq_false_2 _ Hs), orb_true_r.
    - apply stringify_keeps_error, includes_spec in Hb. by rewrite Hb. }
  split; [done|]. intros Hno. split.
  - destruct (decide (mResponseStatusCode request = 200%Z)) as [|Hs]; [done|].
    rewrite Hyes in Hno by auto. done.
  - intros Hb. rewrite Hyes in Hno by auto. done.
Qed.

(** X10: the entry errors.rest of a URL is given by the failing requests
    for it over all roles, in the order they are classified: none without a
    failure; count 1, the code as a number and the list of that code for one
    failure; count 2, the first failure's code as a string and the empty
    list for two; the count, null and the empty list for three or more. *)
Theorem rest_entry_by_number_of_failures (rs : list (string * RoleEntry num)) (u : string) :
  exists e,
    extendJsonWithErrors {| roles := rs; errors := None |}
      = Some {| roles := rs; errors := Some e |}
    /\ errors_rest e !! u =
       match rest_failures u (all_rest rs) with
       | [] => None
       | [c] =>
           Some {| count := 1; mostCommonStatusCode := JNum c; allStatusCodes := [c] |}
       | [c; _] =>
           Some {| count := 2; mostCommonStatusCode := JStr (ToString c);
                   allStatusCodes := [] |}
       | _ :: _ :: _ :: more =>
           Some {| count := 3 + length more; mostCommonStatusCode := JNull;
                   allStatusCodes := [] |}
       end.
Proof.
  destruct (extendJsonWithErrors_spec rs) as (e & He & _ & Hr).
  exists e. split; [done|]. rewrite Hr.
  by destruct (rest_failures u (all_rest rs)) as [|c [|c2 [|c3 more]]].
Qed.

Lemma gql_fold_some (rs : list (string * RoleEntry num)) (name : string) (prev : option GqlEntry) :
  is_Some prev
  \/ (exists p operation,
        p ∈ rs /\ operations (snd p) !! name = Some operation
        /\ existsb triggers operation = true) ->
  is_Some (fold_left (fun prev p => gql_step prev (operations (snd p)) name) rs prev).
Proof.
  revert prev. induction rs as [|p rs IH]; intros prev; simpl.
  - intros [?|(q & ? & Hq & _)]; [done | by apply elem_of_nil in Hq].
  - intros Hsome. apply IH.
    destruct Hsome as [Hprev|(q & operation & Hq & Hop & Ht)].
    + left. unfold gql_step. destruct (operations (snd p) !! name) as [operation|]; [|done].
      destruct (existsb triggers operation) eqn:Ht; [|done].
      destruct (triggers_summary operation Ht) as [s ->]. by eexists.
    + apply elem_of_cons in Hq as [->|Hq]; [|right; eauto].
      left. unfold gql_step. rewrite Hop, Ht.
      destruct (triggers_summary operation Ht) as [s ->]. by eexists.
Qed.

(** X11: errors.gql has an entry for an operation name exactly when, under
    some role, a request of that operation is erroring with a non-empty
    response body; the entry is then a full summary, and its count is the
    number of all erroring requests of the operation it was computed from,
    those with an empty body included. *)
Theorem gql_entry_exists_iff_some_role_triggers (rs : list (string * RoleEntry num)) :
  exists e,
    extendJsonWithErrors {| roles := rs; errors := None |}
      = Some {| roles := rs; errors := Some e |}
    /\ forall name,
         (is_Some (errors_gql e !! name) <->
          exists p operation,
            p ∈ rs /\ operations (snd p) !! name = Some operation
            /\ existsb triggers operation = true)
         /\ forall entry,
              errors_gql e !! name = Some entry ->
              exists s p operation,
                entry = Summary s
                /\ p ∈ rs
                /\ operations (snd p) !! name = Some operation
                /\ gql_count s = length (List.filter is_error operation).
Proof.
  destruct (extendJsonWithErrors_spec rs) as (e & He & Hg & _).
  exists e. split; [done|]. intros name. rewrite Hg. unfold gql_entry. split.
  - split.
    + intros [entry Hentry].
      apply gql_fold_source in Hentry as [?|(p & operation & s & ? & ? & ? & _)];
        [done | eauto].
    + intros H. apply gql_fold_some. by right.
  - intros entry Hentry.
    apply gql_fold_source in Hentry as [?|(p & operation & s & Hp & Hop & _ & Hs & ->)];
      [done|].
    exists s, p, operation. repeat (split; [done|]).
    rewrite gql_summary_spec in Hs.
    destruct (reduce _ (error_codes operation)); [|done].
    injection Hs as <-. simpl. unfold error_codes. by rewrite length_map.
Qed.

End ClassifierProperties.

Section ObserverProperties.

Context {num : Type} `{!JsNumber num}.

Lemma recorded_spec (cfg : Config num) (data : Exchange num) :
  length (recorded cfg data) <= (if monitored cfg data then 1 else 0)
  /\ forall d, In d (recorded cfg data) ->
       monitored_url cfg (requestUrl d)
       /\ (statusCode d <> 200%Z \/ ngtb (responseTime d) (threshold_ms cfg) = true).
Proof.
  unfold recorded, monitored.
  destruct (response data) as [r| |e]; simpl; [|split; [lia | done]..].
  destruct (slow_or_failing cfg data r) eqn:Hs; simpl.
  - pose proof Hs as Hq. apply slow_or_failing_spec in Hq.
    unfold slow_or_failing in Hs. apply andb_true_iff in Hs as [-> _].
    split; [lia|]. by intros d [<-|[]].
  - split; [destruct (url_matches _ _); lia | done].
Qed.

Lemma on_requestfinished_log (cfg : Config num) (st : Observer num) (data : Exchange num) :
  List.filter is_no_buffer_warning (log (fst (on_requestfinished cfg st data)))
  = List.filter is_no_buffer_warning (log st)
      ++ map (fun d => WarnNoResponseBuffer (requestUrl d))
           (List.filter without_body (recorded cfg data)).
Proof.
  unfold on_requestfinished, recorded.
  destruct (response data) as [r| |[m|s]]; simpl; rewrite ?app_nil_r; try done.
  - unfold record_exchange.
    destruct (slow_or_failing cfg data r), (url_matches cfg (url data)),
      (body r) as [b|] eqn:Hb;
      simpl; unfold without_body; simpl; rewrite ?Hb, ?List.filter_app, ?app_nil_r; done.
  - destruct (includes s context_closed_message); simpl;
      by rewrite ?List.filter_app, ?app_nil_r.
Qed.

Lemma observe_from_log (cfg : Config num) (events : list (Exchange num)) (st : Observer num) :
  List.filter is_no_buffer_warning
    (log (fold_left (fun st data => fst (on_requestfinished cfg st data)) events st))
  = List.filter is_no_buffer_warning (log st)
      ++ map (fun d => WarnNoResponseBuffer (requestUrl d))
           (List.filter without_body (flat_map (recorded cfg) events)).
Proof.
  revert st. induction events as [|data events IH]; intros st; simpl.
  - by rewrite app_nil_r.
  - by rewrite IH, on_requestfinished_log, List.filter_app, map_app, app_assoc.
Qed.

(** X12: at every moment of a session the trace lists at most as many
    records as totalRequests counts; every record is of an exchange whose
    URL contains a URLQuery substring and whose status is not 200 or whose
    response time exceeds the threshold; and the log holds one "Could not
    get response Buffer" warning, with its URL, for each record kept without
    a body, in order. *)
Theorem trace_invariants (cfg : Config num) (events : list (Exchange num)) :
  let st := observe cfg events in
  length (requests (collectedData st))
    <= totalRequests (overallInformation (collectedData st))
  /\ (forall d, In d (requests (collectedData st)) ->
        monitored_url cfg (requestUrl d)
        /\ (statusCode d <> 200%Z \/ ngtb (responseTime d) (threshold_ms cfg) = true))
  /\ List.filter is_no_buffer_warning (log st)
     = map (fun d => WarnNoResponseBuffer (requestUrl d))
         (List.filter without_body (requests (collectedData st))).
Proof.
  intros st. subst st.
  destruct (observe_overall cfg events) as [Hn _]. simpl in Hn.
  rewrite observe_requests, Hn. split; [|split].
  - clear Hn. induction events as [|data events IH]; simpl; [lia|].
    rewrite length_app. destruct (recorded_spec cfg data) as [Hlen _].
    destruct (monitored cfg data); simpl; lia.
  - intros d (data & _ & Hd)%in_flat_map. by apply (recorded_spec cfg data).
  - unfold observe. by rewrite observe_from_log.
Qed.

Lemma on_requestfinished_data (cfg : Config num) (st st' : Observer num) (data : Exchange num) :
  collectedData st = collectedData st' ->
  collectedData (fst (on_requestfinished cfg st data))
  = collectedData (fst (on_requestfinished cfg st' data))
  /\ (has_response data = false ->
      collectedData (fst (on_requestfinished cfg st data)) = collectedData st).
Proof.
  intros Heq. unfold on_requestfinished, has_response.
  destruct (response data) as [r| |[m|s]]; simpl; try done.
  - split; [|done]. unfold record_exchange, count_exchange, push_request, write_log.
    destruct (slow_or_failing cfg data r), (url_matches cfg (url data)), (body r);
      simpl; by rewrite Heq.
  - by destruct (includes s context_closed_message).
Qed.

Lemma observe_from_skip (cfg : Config num) (events : list (Exchange num)) (st st' : Observer num) :
  collectedData st = collectedData st' ->
  collectedData (fold_left (fun st data => fst (on_requestfinished cfg st data)) events st)
  = collectedData
      (fold_left (fun st data => fst (on_requestfinished cfg st data))
         (List.filter has_response events) st').
Proof.
  revert st st'. induction events as [|data events IH]; intros st st' Heq; [done|].
  cbn [fold_left List.filter].
  destruct (on_requestfinished_data cfg st st' data Heq) as [Hsame Hskip].
  destruct (has_response data) eqn:Hr; cbn [fold_left].
  - by apply IH.
  - apply IH. by rewrite Hskip.
Qed.

(** X13: an exchange whose response the driver does not deliver (the promise
    rejects or resolves to null) leaves the trace as it is: the counters and
    records of a session are those of the session without such exchanges. *)
Theorem exchanges_without_response_leave_no_trace (cfg : Config num) (events : list (Exchange num)) :
  collectedData (observe cfg events)
  = collectedData (observe cfg (List.filter has_response events)).
Proof. by apply observe_from_skip. Qed.

End ObserverProperties.

Section PostProcessesProperties.

Context {num : Type}.


End PostProcessesProperties.

Module PortsProperties.

Import Ports.

Lemma randomPort_range (r : Q) :
  is_draw r -> (minPort <= randomPort r <= maxPort)%Z.
Proof.
  intros [Hlo Hhi]. unfold randomPort, minPort, maxPort.
  change (65535 - 49152 + 1)%Z with 16384%Z.
  assert (0 <= Qfloor (r * inject_Z 16384))%Z.
  { rewrite <- (Qfloor_Z 0). apply Qfloor_resp_le.
    apply Qmult_le_0_compat; [done | by apply Qle_bool_imp_le]. }
  assert (Qfloor (r * inject_Z 16384) < 16384)%Z.
  { rewrite Zlt_Qlt. eapply Qle_lt_trans; [apply Qfloor_le|].
    rewrite <- (Qmult_1_l (inject_Z 16384)) at 2.
    apply Qmult_lt_compat_r; [by apply Qlt_alt | done]. }
  lia.
Qed.

(** X15: when some draw of Math.random gives a port that is not in use,
    getFreeDebugPort returns; the port it returns lies between 49152 and
    65535, was not in use, and is in use afterwards, the set of used ports
    having grown by exactly that port. *)
Theorem getFreeDebugPort_returns_fresh_port (draws : list Q) (usedPorts : gset Z) :
  Forall is_draw draws ->
  Exists (fun r => randomPort r ∉ usedPorts) draws ->
  exists port,
    getFreeDebugPort draws usedPorts = Some (port, {[port]} ∪ usedPorts)
    /\ (minPort <= port <= maxPort)%Z
    /\ port ∉ usedPorts.
Proof.
  intros Hdraws Hfree.
  induction draws as [|r draws IH]; simpl; [by apply Exists_nil in Hfree|].
  apply Forall_cons in Hdraws as [Hr Hdraws].
  destruct (decide (randomPort r ∈ usedPorts)) as [Hused|Hnew].
  - apply IH; [done|]. by apply Exists_cons in Hfree as [?|?].
  - exists (randomPort r). split; [done|]. split; [by apply randomPort_range | done].
Qed.

(** X16: when every port from 49152 to 65535 is in use, getFreeDebugPort
    does not return, whatever Math.random draws and however often. *)
Theorem getFreeDebugPort_loops_when_exhausted (draws : list Q) (usedPorts : gset Z) :
  (forall port, (minPort <= port <= maxPort)%Z -> port ∈ usedPorts) ->
  Forall is_draw draws ->
  getFreeDebugPort draws usedPorts = None.
Proof.
  intros Hfull Hdraws. induction Hdraws as [|r draws Hr _ IH]; simpl; [done|].
  rewrite decide_True; [done|]. by apply Hfull, randomPort_range.
Qed.

(** X17: getFreeDebugPort never hands out a port twice: a port returned by a
    call differs from the port returned by any later call, as long as the
    set of used ports only grows in between. *)
Theorem getFreeDebugPort_never_repeats
  (draws1 draws2 : list Q) (used0 used1 used1' used2 : gset Z) (port1 port2 : Z) :
  getFreeDebugPort draws1 used0 = Some (port1, used1) ->
  used1 ⊆ used1' ->
  getFreeDebugPort draws2 used1' = Some (port2, used2) ->
  port1 <> port2.
Proof.
  assert (Hspec : forall draws used port used',
            getFreeDebugPort draws used = Some (port, used') ->
            (port ∉ used) /\ (used' = {[port]} ∪ used)).
  { induction draws as [|r draws IH]; intros used port used'; simpl; [done|].
    destruct (decide (randomPort r ∈ used)); [apply IH|]. by intros [= <- <-]. }
  intros H1 Hsub H2 Heq.
  pose proof (Hspec _ _ _ _ H1) as [_ E1]. pose proof (Hspec _ _ _ _ H2) as [Hnew _].
  apply Hnew, Hsub. rewrite E1, Heq. apply elem_of_union_l, elem_of_singleton_2. reflexivity.
Qed.

End PortsProperties.

(** ** MollyHelper and Utils: strings *)

Module HelperProperties.
Import Helper.

Lemma string_length_app (a b : string) :
  String.length (a +:+ b) = String.length a + String.length b.
Proof.
  induction a as [|x a IH]; [reflexivity|].
  change (S (String.length (a +:+ b)) = S (String.length a + String.length b)).
  by rewrite IH.
Qed.

Lemma string_app_nil (a : string) : a +:+ "" = a.
Proof.
  induction a as [|x a IH]; [reflexivity|].
  change (String x (a +:+ "") = String x a). by rewrite IH.
Qed.

Lemma split_nonempty (c : ascii) (s : string) : split c s <> [].
Proof.
  destruct s as [|x s]; simpl; [done|].
  case_bool_decide; [done|]. by destruct (split c s).
Qed.

Lemma split_app (c : ascii) (a b : string) :
  split c (a +:+ String c b) = split c a ++ split c b.
Proof.
  induction a as [|x a IH].
  - simpl. by rewrite bool_decide_eq_true_2.
  - change (split c (String x (a +:+ String c b)) = split c (String x a) ++ split c b).
    simpl. rewrite IH. case_bool_decide; [done|].
    pose proof (split_nonempty c a). by destruct (split c a).
Qed.

Lemma split_whole (c : ascii) (s : string) :
  includes s (String c "") = false -> split c s = [s].
Proof.
  induction s as [|x s IH]; simpl; [done|].
  rewrite orb_false_iff, andb_true_r. intros [Hx Hs].
  apply bool_decide_eq_false in Hx.
  rewrite bool_decide_eq_false_2 by congruence. by rewrite IH.
Qed.

Lemma split_first (c : ascii) (s : string) :
  split c s !! 0 = Some (split_head c s).
Proof.
  induction s as [|x s IH]; simpl; [done|].
  case_bool_decide; [done|].
  destruct (split c s) as [|p ps]; [done|]. simpl in *. congruence.
Qed.

Lemma indexOf_absent (x : string) (l : list string) :
  ~ In x l -> indexOf x l = (-1)%Z.
Proof.
  induction l as [|y l IH]; simpl; [done|]. intros Hn.
  rewrite bool_decide_eq_false_2 by (intros ->; apply Hn; by left).
  rewrite IH by (intros ?; apply Hn; by right). reflexivity.
Qed.

Lemma indexOf_first (x : string) (l1 l2 : list string) :
  ~ In x l1 -> indexOf x (l1 ++ x :: l2) = Z.of_nat (length l1).
Proof.
  induction l1 as [|y l1 IH]; simpl; intros Hn.
  - by rewrite bool_decide_eq_true_2.
  - rewrite bool_decide_eq_false_2 by (intros ->; apply Hn; by left).
    rewrite IH by (intros ?; apply Hn; by right).
    destruct (Z.ltb_spec (Z.of_nat (length l1)) 0); lia.
Qed.

Lemma slice0_length (n : nat) (s : string) :
  String.length (slice0 n s) = n `min` String.length s.
Proof.
  revert s. induction n as [|n IH]; intros [|x s]; simpl; try done. by rewrite IH.
Qed.

Lemma slice0_app (n : nat) (a b : string) :
  n <= String.length a -> slice0 n (a +:+ b) = slice0 n a.
Proof.
  revert a. induction n as [|n IH]; intros a Hn; [by destruct a|].
  destruct a as [|x a]; simpl in Hn; [lia|].
  change (String x (slice0 n (a +:+ b)) = String x (slice0 n a)).
  rewrite IH by lia. reflexivity.
Qed.

Lemma slice0_chars (P : ascii -> Prop) (n : nat) (s : string) :
  Forall P (String.list_ascii_of_string s) ->
  Forall P (String.list_ascii_of_string (slice0 n s)).
Proof.
  revert s. induction n as [|n IH]; intros [|x s]; simpl; try by constructor.
  intros [Hx Hs]%Forall_cons. constructor; [done | by apply IH].
Qed.

Lemma toString_hex_length (bytes : list ascii) :
  String.length (toString_hex bytes) = 2 * length bytes.
Proof.
  induction bytes as [|b bytes IH]; [done|].
  cbn [toString_hex length]. rewrite string_length_app, IH.
  change (String.length (hex_byte b)) with 2. lia.
Qed.

Lemma toString_hex_app (l1 l2 : list ascii) :
  toString_hex (l1 ++ l2) = toString_hex l1 +:+ toString_hex l2.
Proof.
  induction l1 as [|b l1 IH]; simpl; [done|]. by rewrite IH.
Qed.

Lemma hex_digit_is_hex (k : N) : (k < 16)%N -> is_hex_digit (hex_digit k).
Proof.
  intros Hk. rewrite <- (N2Nat.id k).
  assert (Hi : N.to_nat k < 16) by lia. revert Hi. generalize (N.to_nat k) as i.
  intros i Hi.
  do 16 (destruct i as [|i];
         [vm_compute; repeat first [left; reflexivity | right] |]).
  lia.
Qed.

Lemma toString_hex_chars (bytes : list ascii) :
  Forall is_hex_digit (String.list_ascii_of_string (toString_hex bytes)).
Proof.
  induction bytes as [|b bytes IH]; simpl; [constructor|].
  pose proof (N_ascii_bounded b) as Hb.
  constructor; [|constructor; [|exact IH]]; apply hex_digit_is_hex.
  - apply N.Div0.div_lt_upper_bound. lia.
  - apply N.mod_lt. lia.
Qed.

(** X18: for a stack whose first line containing "modules" is a path with a
    directory "modules" (and no earlier path segment of that name), the
    module name is the path segment after it, on the platforms the switch
    knows, each with its own separator. *)
Theorem getModuleName_is_segment_after_modules
  (stack line pre m rest : string) (platform : Platform) (sep : ascii) :
  separator platform = Some sep ->
  List.find (fun l => includes l "modules") (split line_feed stack) = Some line ->
  line = pre +:+ String sep ("modules" +:+ String sep (m +:+ rest)) ->
  ~ In "modules" (split sep pre) ->
  m <> "" ->
  includes m (String sep "") = false ->
  rest = "" \/ starts_with (String sep "") rest = true ->
  fst (getModuleName stack platform) = Some m.
Proof.
  intros Hsep Hfind -> Hpre Hm Hnosep Hrest.
  unfold getModuleName. rewrite Hfind, Hsep. cbn [fst].
  assert (Hmodules : split sep "modules" = ["modules"]).
  { destruct platform; simplify_eq/=; reflexivity. }
  assert (Htail : exists tl, split sep (m +:+ rest) = m :: tl) .
  { destruct Hrest as [->|[post ->]%starts_with_spec].
    - exists []. by rewrite string_app_nil, split_whole.
    - exists (split sep post).
      change (String sep "" +:+ post) with (String sep post).
      by rewrite split_app, split_whole. }
  destruct Htail as [tl Htail].
  rewrite split_app, split_app, Hmodules, Htail.
  cbn [app]. rewrite indexOf_first by done.
  unfold at_index. destruct (Z.ltb_spec (Z.of_nat (length (split sep pre)) + 1) 0); [lia|].
  replace (Z.to_nat (Z.of_nat (length (split sep pre)) + 1)) with (S (length (split sep pre))) by lia.
  rewrite (lookup_app_r (split sep pre)) by lia.
  replace (S (length (split sep pre)) - length (split sep pre)) with 1 by lia.
  cbn. by destruct m.
Qed.

(** X19: when no path segment of the first line containing "modules" is
    "modules" itself (a line of node_modules, say), indexOf gives -1 and
    the result is the text before the first separator of that line, null
    only if that text is empty. *)
Theorem getModuleName_without_modules_segment
  (stack line : string) (platform : Platform) (sep : ascii) :
  separator platform = Some sep ->
  List.find (fun l => includes l "modules") (split line_feed stack) = Some line ->
  ~ In "modules" (split sep line) ->
  fst (getModuleName stack platform) = string_or_null (Some (split_head sep line)).
Proof.
  intros Hsep Hfind Hnone. unfold getModuleName. rewrite Hfind, Hsep. cbn [fst].
  rewrite indexOf_absent by done. unfold at_index. cbn.
  by rewrite split_first.
Qed.

(** X20: generateRandomString(n) has n characters, all of them lower-case
    hexadecimal digits, and is made of the first half of the random bytes
    alone: the bytes after the first ceil(n/2) are drawn and dropped. *)
Theorem generateRandomString_length_alphabet_and_bytes_used (randomBytes : list ascii) :
  String.length (generateRandomString randomBytes) = length randomBytes
  /\ Forall is_hex_digit (String.list_ascii_of_string (generateRandomString randomBytes))
  /\ generateRandomString randomBytes
     = slice0 (length randomBytes)
         (toString_hex (take ((length randomBytes + 1) / 2) randomBytes)).
Proof.
  unfold generateRandomString. split; [|split].
  - rewrite slice0_length, toString_hex_length. lia.
  - apply slice0_chars, toString_hex_chars.
  - set (n := length randomBytes). set (k := (n + 1) / 2).
    rewrite <- (take_drop k randomBytes) at 1.
    rewrite toString_hex_app. apply slice0_app.
    rewrite toString_hex_length, length_take. fold n.
    assert (n + 1 < 2 * k + 2) by (unfold k; pose proof (Nat.div_mod_eq (n + 1) 2);
      pose proof (Nat.mod_upper_bound (n + 1) 2); lia).
    assert (k <= n) by (unfold k; destruct n; [done|]; apply Nat.Div0.div_le_upper_bound; lia).
    lia.
Qed.

Lemma jargon_fold_prefix (next : list string) (phrase : string) :
  exists more, fold_left (fun acc q => acc +:+ " " +:+ q) next phrase = phrase +:+ more.
Proof.
  revert phrase. induction next as [|p next IH]; intros phrase; simpl.
  - exists "". by rewrite string_app_nil.
  - destruct (IH (phrase +:+ " " +:+ p)) as [more ->].
    exists ((" " +:+ p) +:+ more). by rewrite string_app_assoc.
Qed.

Lemma jargon_loop_spec (charCount : nat) (next : list string) (phrase : string) :
  charCount <= String.length phrase + length next ->
  exists s,
    jargon_loop charCount phrase next = Some s
    /\ charCount <= String.length s
    /\ slice0 charCount s
       = slice0 charCount (fold_left (fun acc q => acc +:+ " " +:+ q) next phrase).
Proof.
  revert phrase. induction next as [|p next IH]; intros phrase Hn; simpl in *.
  - destruct (Nat.ltb_spec (String.length phrase) charCount); [lia|]. by exists phrase.
  - destruct (Nat.ltb_spec (String.length phrase) charCount) as [Hlt|Hge].
    + apply IH. rewrite string_length_app.
      change (String.length (" " +:+ p)) with (S (String.length p)). lia.
    + exists phrase. split; [done|]. split; [done|].
      destruct (jargon_fold_prefix next (phrase +:+ " " +:+ p)) as [more ->].
      by rewrite string_app_assoc, slice0_app.
Qed.

(** X21: generateHackerJargon(charCount) returns once faker has delivered
    enough phrases (charCount of them are enough whatever their lengths),
    and what it returns are the first charCount characters of the phrases
    joined by single spaces: a string of exactly charCount characters. *)
Theorem generateHackerJargon_returns_prefix_of_exact_length
  (charCount : nat) (first : string) (next : list string) :
  charCount <= String.length first + length next ->
  exists s,
    generateHackerJargon charCount (first :: next) = Some s
    /\ s = slice0 charCount (fold_left (fun acc q => acc +:+ " " +:+ q) next first)
    /\ String.length s = charCount.
Proof.
  intros Hn. destruct (jargon_loop_spec charCount next first Hn) as (s & Hs & Hlen & Hpre).
  exists (slice0 charCount s). unfold generateHackerJargon. rewrite Hs.
  split; [done|]. split; [done|]. rewrite slice0_length. lia.
Qed.

End HelperProperties.

(** ** Global setup *)

Section GlobalSetupProperties.

Variable toLowerCase : string -> string.
Variable envFile : string -> string -> option (gmap string string).

Lemma load_modules_untouched (stage k : string) (modules : list string) (acc : gmap string string * list SetupLog) :
  (forall m envConfig, In m modules -> envFile m (env_file_name toLowerCase stage) = Some envConfig -> envConfig !! k = None) ->
  fst (fold_left (load_module toLowerCase envFile stage) modules acc) !! k = fst acc !! k.
Proof.
  revert acc. induction modules as [|m modules IH]; intros acc Hnone; simpl; [done|].
  rewrite IH by (intros m' c Hin; apply Hnone; by right).
  unfold load_module.
  destruct (envFile m (env_file_name toLowerCase stage)) as [envConfig|] eqn:Hm; [|done].
  simpl. apply lookup_union_r, (Hnone m); [by left | done].
Qed.

Lemma load_modules_log (stage : string) (modules : list string) (acc : gmap string string * list SetupLog) :
  snd (fold_left (load_module toLowerCase envFile stage) modules acc)
  = snd acc ++ (WarnEnvFileNotFound stage <$> List.filter (lacks_env_file toLowerCase envFile stage) modules).
Proof.
  revert acc. induction modules as [|m modules IH]; intros acc; simpl.
  - by rewrite app_nil_r.
  - rewrite IH. unfold load_module, lacks_env_file.
    destruct (envFile m (env_file_name toLowerCase stage)); simpl; [done|]. by rewrite <- app_assoc.
Qed.

(** X22: loadEnv for an enabled stage returns; a variable that env files of
    several modules define gets the value of the last module (in directory
    order) that defines it, which also replaces a value process.env had; a
    variable no env file defines keeps its value of process.env; and one
    warning is logged for each module without an env file of the stage.  A
    stage containing "local" is cut at its first hyphen before the files
    are looked up. *)
Theorem loadEnv_last_module_wins
  (enabled modules : list string) (stage : string) (processEnv : gmap string string) :
  toLowerCase stage ∈ enabled ->
  let stage' := stage_of_files stage in
  exists env' lg,
    loadEnv toLowerCase enabled modules envFile stage processEnv = Some (env', lg)
    /\ (forall k before m after envConfig v,
          modules = before ++ m :: after ->
          envFile m (env_file_name toLowerCase stage') = Some envConfig ->
          envConfig !! k = Some v ->
          (forall m' c, In m' after -> envFile m' (env_file_name toLowerCase stage') = Some c -> c !! k = None) ->
          env' !! k = Some v)
    /\ (forall k,
          (forall m c, In m modules -> envFile m (env_file_name toLowerCase stage') = Some c -> c !! k = None) ->
          env' !! k = processEnv !! k)
    /\ lg = (WarnEnvFileNotFound stage' <$> List.filter (lacks_env_file toLowerCase envFile stage') modules).
Proof.
  intros Henabled stage'. unfold loadEnv. rewrite bool_decide_eq_true_2 by done.
  fold stage'. eexists _, _. split; [reflexivity|]. split; [|split].
  - intros k before m after envConfig v -> Hm Hv Hafter.
    apply lookup_union_Some_l. rewrite fold_left_app. cbn [fold_left].
    rewrite load_modules_untouched by done.
    unfold load_module at 1. rewrite Hm. cbn [fst].
    by apply lookup_union_Some_l.
  - intros k Hnone. rewrite lookup_union_r; [done|].
    by rewrite load_modules_untouched.
  - by rewrite load_modules_log.
Qed.

End GlobalSetupProperties.

(** ** The added code on concrete inputs *)

(** The session of role "super_admin" with ten monitored exchanges writes a
    trace, which merged alone gives a report with the one role "super". *)
Lemma session_trace_merged_alone_witness :
  exists name content report entry,
    fst (monitorNetworkTraffic Sample.cfg "super_admin" 17 Sample.ten_matched)
      = Some (name, content)
    /\ written_report
         (mergeNetworkTraces "stamp" {| store := Some [(name, content)]; reports := [] |})
       = Some report
    /\ roles report = [("super", entry)]
    /\ length (restRequests entry) = 0.
Proof.
  destruct (fst (monitorNetworkTraffic Sample.cfg "super_admin" 17 Sample.ten_matched))
    as [[name content]|] eqn:Hwritten; [|vm_compute in Hwritten; discriminate].
  destruct (session_trace_merged_alone Sample.cfg "super_admin" 17 Sample.ten_matched
              "stamp" name content [] Hwritten)
    as (report & entry & Hreport & Hroles & _ & Hrest & _).
  exists name, content, report, entry.
  split; [reflexivity|]. split; [exact Hreport|]. split; [exact Hroles|].
  rewrite Hrest. reflexivity.
Defined.

(** With port 57344 in use, the draws 0.5 (port 57344 again) and 0 give a
    fresh port. *)
Lemma getFreeDebugPort_returns_fresh_port_witness :
  exists port,
    Ports.getFreeDebugPort [(1 # 2)%Q; 0%Q] {[ 57344%Z ]}
      = Some (port, {[ port ]} ∪ {[ 57344%Z ]})
    /\ (Ports.minPort <= port <= Ports.maxPort)%Z
    /\ port ∉ ({[ 57344%Z ]} : gset Z).
Proof.
  apply (PortsProperties.getFreeDebugPort_returns_fresh_port [(1 # 2)%Q; 0%Q] {[ 57344%Z ]}).
  - repeat constructor; unfold Qle, Qlt; simpl; lia.
  - apply Exists_cons; right. apply Exists_cons; left.
    intros Hin%elem_of_singleton. vm_compute in Hin. discriminate.
Defined.

(** With every port in use no draw ends the loop. *)
Lemma getFreeDebugPort_loops_when_exhausted_witness :
  Ports.getFreeDebugPort [(1 # 2)%Q; 0%Q; (3 # 4)%Q] Setup.all_ports = None.
Proof.
  apply PortsProperties.getFreeDebugPort_loops_when_exhausted.
  - intros port Hport. unfold Setup.all_ports.
    apply elem_of_list_to_set, elem_of_seqZ. lia.
  - repeat constructor; unfold Qle, Qlt; simpl; lia.
Defined.

(** Two calls in a row, the second drawing the port of the first again. *)
Lemma getFreeDebugPort_never_repeats_witness :
  Ports.getFreeDebugPort [(1 # 2)%Q] ∅ = Some (57344%Z, {[ 57344%Z ]} ∪ ∅)
  /\ Ports.getFreeDebugPort [(1 # 2)%Q; 0%Q] ({[ 57344%Z ]} ∪ ∅)
     = Some (49152%Z, {[ 49152%Z ]} ∪ ({[ 57344%Z ]} ∪ ∅))
  /\ 57344%Z <> 49152%Z.
Proof.
  assert (H1 : Ports.getFreeDebugPort [(1 # 2)%Q] ∅ = Some (57344%Z, {[ 57344%Z ]} ∪ ∅))
    by (vm_compute; reflexivity).
  assert (H2 : Ports.getFreeDebugPort [(1 # 2)%Q; 0%Q] ({[ 57344%Z ]} ∪ ∅)
               = Some (49152%Z, {[ 49152%Z ]} ∪ ({[ 57344%Z ]} ∪ ∅)))
    by (vm_compute; reflexivity).
  split; [exact H1|]. split; [exact H2|].
  exact (PortsProperties.getFreeDebugPort_never_repeats _ _ _ _ _ _ _ _ H1 (reflexivity _) H2).
Defined.

(** A test of the module "shop" run from below a node_modules directory. *)
Lemma getModuleName_is_segment_after_modules_witness :
  fst (Helper.getModuleName Setup.stack_of_module Helper.Linux) = Some "shop".
Proof.
  apply (HelperProperties.getModuleName_is_segment_after_modules
           Setup.stack_of_module
           "    at Fixture.use (/home/ci/node_modules/molly/modules/shop/tests/cart.spec.ts:12:3)"
           "    at Fixture.use (/home/ci/node_modules/molly"
           "shop" "/tests/cart.spec.ts:12:3)" Helper.Linux "/"%char).
  - reflexivity.
  - vm_compute; reflexivity.
  - reflexivity.
  - vm_compute. intuition discriminate.
  - discriminate.
  - reflexivity.
  - right. reflexivity.
Defined.

(** A stack whose first line with "modules" lies in node_modules: the result
    is the text before the first slash of that line. *)
Lemma getModuleName_without_modules_segment_witness :
  fst (Helper.getModuleName Setup.stack_of_dependency Helper.Linux) = Some "    at expect (".
Proof.
  rewrite (HelperProperties.getModuleName_without_modules_segment
             Setup.stack_of_dependency
             "    at expect (/home/ci/node_modules/playwright/lib/index.js:88:10)"
             Helper.Linux "/"%char).
  - reflexivity.
  - reflexivity.
  - vm_compute; reflexivity.
  - vm_compute. intuition discriminate.
Defined.

(** Ten characters asked for, the first phrase having four. *)
Lemma generateHackerJargon_returns_prefix_of_exact_length_witness :
  exists s,
    Helper.generateHackerJargon 10 ["hack"; "the"; "bus"; "now"; "ok"; "a"; "b"] = Some s
    /\ s = "hack the b"
    /\ String.length s = 10.
Proof.
  destruct (HelperProperties.generateHackerJargon_returns_prefix_of_exact_length
              10 "hack" ["the"; "bus"; "now"; "ok"; "a"; "b"]) as (s & Hs & Hpre & Hlen).
  - simpl. lia.
  - exists s. split; [exact Hs|]. split; [|exact Hlen]. rewrite Hpre. reflexivity.
Defined.

(** The stage "local-kv-test" of the configuration: the files .env.local
    are read, the BASE_URL of "shop" replaces that of "kv" and of
    process.env, and "tools" gets the warning. *)
Lemma loadEnv_last_module_wins_witness :
  exists env' lg,
    loadEnv Setup.lower Setup.enabled Setup.modules Setup.envFile "local-kv-test" Setup.processEnv
      = Some (env', lg)
    /\ env' !! "BASE_URL" = Some "http://localhost:4000"
    /\ env' !! "test_env" = Some "local-kv-test"
    /\ lg = [WarnEnvFileNotFound "local" "tools"].
Proof.
  destruct (loadEnv_last_module_wins Setup.lower Setup.envFile Setup.enabled Setup.modules
              "local-kv-test" Setup.processEnv) as (env' & lg & Hload & Hlast & Hkeep & Hlog).
  - vm_compute. set_solver.
  - exists env', lg. split; [exact Hload|]. split; [|split].
    + apply (Hlast "BASE_URL" ["kv"] "shop" ["tools"] {[ "BASE_URL" := "http://localhost:4000" ]}).
      * reflexivity.
      * vm_compute; reflexivity.
      * vm_compute; reflexivity.
      * intros m' c [<-|[]]. vm_compute. discriminate.
    + rewrite Hkeep; [vm_compute; reflexivity|].
      intros m c Hin. vm_compute in Hin.
      destruct Hin as [<-|[<-|[<-|[]]]]; vm_compute; intros [= <-]; vm_compute; reflexivity.
    + rewrite Hlog. vm_compute. reflexivity.
Defined.
